(** * Natours: the query builder [APIFeatures] (src/utils/apiFeatures.js)

    A shallow embedding of the class [APIFeatures] and of the JavaScript
    built-ins its four methods rely on, followed by the properties of the
    query descriptor it builds.
    The embedding goes on with the code around the builder: the alias
    route [/top-5-cheap], the class [AppError], [filterObj] and
    [updateMe] of the user controller, and the guard of the geospatial
    handlers.

    Conventions of the embedding.
    - A JavaScript string is a [string]; each [ascii] stands for one code
      unit in the range U+0000..U+00FF.
    - [req.query] is what Express's query-string parser produces: a tree
      whose leaves are strings and whose inner nodes are arrays and plain
      objects ([value]).  An object is an association list in property
      enumeration order.
    - A JavaScript number is [NaN], an infinity, or a finite value kept as
      an exact rational in lowest terms; rounding and overflow of binary
      floating point are not part of the model.
    - The request object lives in a store of objects ([heap]) and the
      builder holds a reference to it, so that copying ([{...obj}]) and
      [delete] are explicit.
    - The backend query object (a mongoose [Query]) is external to the
      repository; it is represented by the arguments it has received on
      each of its five channels [find], [sort], [select], [skip], [limit]. *)

From Stdlib Require Import List String Ascii NArith ZArith QArith Bool Lia.
From Stdlib Require Import Permutation Sorted.
Import ListNotations.

Local Open Scope list_scope.
Local Open Scope string_scope.

(* ================================================================= *)
(** ** JavaScript built-ins *)

Module JS.

(** *** Characters *)

Definition code (c : ascii) : N := N_of_ascii c.

Definition chr (n : N) : ascii := ascii_of_N n.

(** The class [\w] of a regular expression without the [u] and [i]
    flags: [A-Za-z0-9_]. *)
Definition is_word_char (c : ascii) : bool :=
  let n := code c in
  ((48 <=? n) && (n <=? 57) || (65 <=? n) && (n <=? 90) ||
   (n =? 95) || (97 <=? n) && (n <=? 122))%N.

(** Code units that [JSON.stringify] must escape as control characters. *)
Definition is_control (c : ascii) : bool := (code c <? 32)%N.

(** [StrWhiteSpaceChar]: white space and line terminators below U+0100. *)
Definition is_white_space (c : ascii) : bool :=
  match code c with
  | 9 | 10 | 11 | 12 | 13 | 32 | 160 => true
  | _ => false
  end%N.

(** *** Values of a parsed query string *)

#[local] Unset Elimination Schemes.

Inductive value : Type :=
| VStr (s : string)
| VArr (elems : list value)
| VObj (props : list (string * value)).

#[local] Set Elimination Schemes.

(** Induction on a value, with the property on every element of an array
    and on every value of an object. *)
Fixpoint value_ind (P : value -> Prop)
    (HS : forall s, P (VStr s))
    (HA : forall l, Forall P l -> P (VArr l))
    (HO : forall o, Forall (fun kv => P (snd kv)) o -> P (VObj o))
    (v : value) : P v :=
  match v with
  | VStr s => HS s
  | VArr l =>
      HA l ((fix go (l : list value) : Forall P l :=
               match l with
               | [] => Forall_nil P
               | x :: l' => Forall_cons x (value_ind P HS HA HO x) (go l')
               end) l)
  | VObj o =>
      HO o ((fix go (o : list (string * value)) : Forall (fun kv => P (snd kv)) o :=
               match o with
               | [] => Forall_nil _
               | kv :: o' =>
                   Forall_cons (P := fun kv => P (snd kv)) kv
                               (value_ind P HS HA HO (snd kv)) (go o')
               end) o)
  end.

Definition object : Type := list (string * value).

(** [obj[k]] on a plain object; [None] is [undefined]. *)
Fixpoint get_prop (o : object) (k : string) : option value :=
  match o with
  | [] => None
  | (k', v) :: o' => if (k' =? k)%string then Some v else get_prop o' k
  end.

(** [delete obj[k]]. *)
Fixpoint delete_prop (o : object) (k : string) : object :=
  match o with
  | [] => []
  | (k', v) :: o' =>
      if (k' =? k)%string then delete_prop o' k else (k', v) :: delete_prop o' k
  end.

(** [obj[k] = v]: an existing property keeps its place. *)
Fixpoint set_prop (o : object) (k : string) (v : value) : object :=
  match o with
  | [] => [(k, v)]
  | (k', v') :: o' =>
      if (k' =? k)%string then (k', v) :: o' else (k', v') :: set_prop o' k v
  end.

Definition keys (o : object) : list string := map fst o.

(** *** Numbers *)

Inductive number : Type :=
| NaN
| Inf (negative : bool)
| Fin (q : Q).

Definition of_Z (z : Z) : number := Fin (inject_Z z).

Definition is_zero (q : Q) : bool := (Qnum q =? 0)%Z.
Definition is_neg (q : Q) : bool := (Qnum q <? 0)%Z.

(** [a * b], computed exactly: it is the double of the code whenever the
    operands and the product are safe integers ([Numeral.safe]); rounding
    and overflow beyond that range are not modelled. *)
Definition mul (a b : number) : number :=
  match a, b with
  | NaN, _ | _, NaN => NaN
  | Inf s, Inf t => Inf (xorb s t)
  | Inf s, Fin q | Fin q, Inf s => if is_zero q then NaN else Inf (xorb s (is_neg q))
  | Fin p, Fin q => Fin (Qred (p * q))
  end.

(** [a - b], computed exactly, with the same range as [mul]. *)
Definition sub (a b : number) : number :=
  match a, b with
  | NaN, _ | _, NaN => NaN
  | Inf s, Inf t => if Bool.eqb s t then NaN else Inf s
  | Inf s, Fin _ => Inf s
  | Fin _, Inf t => Inf (negb t)
  | Fin p, Fin q => Fin (Qred (p - q))
  end.

(** [ToBoolean] on a number: [NaN] and zero are falsy. *)
Definition truthy_number (a : number) : bool :=
  match a with
  | NaN => false
  | Inf _ => true
  | Fin q => negb (is_zero q)
  end.

(** [a || b] on numbers. *)
Definition or_number (a b : number) : number :=
  if truthy_number a then a else b.

(** *** [StringToNumber] *)

Fixpoint trim_left (s : string) : string :=
  match s with
  | String c r => if is_white_space c then trim_left r else s
  | EmptyString => EmptyString
  end.

Fixpoint trim_right (s : string) : string :=
  match s with
  | String c r =>
      match trim_right r with
      | EmptyString => if is_white_space c then EmptyString else String c EmptyString
      | r' => String c r'
      end
  | EmptyString => EmptyString
  end.

Definition digit (base : N) (c : ascii) : option N :=
  let n := code c in
  let d := (if (48 <=? n) && (n <=? 57) then Some (n - 48)
            else if (97 <=? n) && (n <=? 102) then Some (n - 87)
            else if (65 <=? n) && (n <=? 70) then Some (n - 55)
            else None)%N in
  match d with
  | Some d => if (d <? base)%N then Some d else None
  | None => None
  end.

(** Reads the longest run of digits: accumulated value, number of digits
    read, rest of the input. *)
Fixpoint read_digits (base acc : N) (cnt : nat) (s : string) : N * nat * string :=
  match s with
  | String c r =>
      match digit base c with
      | Some d => read_digits base (acc * base + d) (S cnt) r
      | None => (acc, cnt, s)
      end
  | EmptyString => (acc, cnt, s)
  end.

(** [m * 10^e] as a rational in lowest terms. *)
Definition scale (m : N) (e : Z) : Q :=
  if (0 <=? e)%Z then inject_Z (Z.of_N m * 10 ^ e)
  else Qred (Qmake (Z.of_N m) (Z.to_pos (10 ^ (- e)))).

Definition read_sign (s : string) : bool * string :=
  match s with
  | String c r =>
      if (code c =? 45)%N then (true, r)
      else if (code c =? 43)%N then (false, r)
      else (false, s)
  | EmptyString => (false, s)
  end.

(** [StrUnsignedDecimalLiteral]: [Infinity], or digits with an optional
    fraction and an optional exponent. *)
Definition StrUnsignedDecimalLiteral (s : string) : option number :=
  if (s =? "Infinity")%string then Some (Inf false)
  else
    let '(ip, ni, r1) := read_digits 10 0 0 s in
    let '(m, nf, r2) :=
      match r1 with
      | String c r => if (code c =? 46)%N then read_digits 10 ip 0 r else (ip, 0%nat, r1)
      | EmptyString => (ip, 0%nat, r1)
      end in
    if (ni + nf =? 0)%nat then None
    else
      match r2 with
      | EmptyString => Some (Fin (scale m (- Z.of_nat nf)))
      | String c r3 =>
          if ((code c =? 101) || (code c =? 69))%N then
            let '(neg, r4) := read_sign r3 in
            let '(x, nx, r5) := read_digits 10 0 0 r4 in
            match nx, r5 with
            | S _, EmptyString =>
                let e := if neg then (- Z.of_N x)%Z else Z.of_N x in
                Some (Fin (scale m (e - Z.of_nat nf)))
            | _, _ => None
            end
          else None
      end.

Definition negate (a : number) : number :=
  match a with
  | NaN => NaN
  | Inf s => Inf (negb s)
  | Fin q => Fin (Qred (- q))
  end.

(** [NonDecimalIntegerLiteral]: [0x], [0o], [0b] followed by at least one
    digit of the base and nothing else. *)
Definition NonDecimalIntegerLiteral (s : string) : option number :=
  match s with
  | String z (String b r) =>
      if (code z =? 48)%N then
        let base :=
          (if (code b =? 120) || (code b =? 88) then Some 16
           else if (code b =? 111) || (code b =? 79) then Some 8
           else if (code b =? 98) || (code b =? 66) then Some 2
           else None)%N in
        match base with
        | Some base =>
            match read_digits base 0 0 r with
            | (n, S _, EmptyString) => Some (of_Z (Z.of_N n))
            | _ => None
            end
        | None => None
        end
      else None
  | _ => None
  end.

(** The mathematical value of the literal, kept exactly.  It is the
    double of the code whenever that value is a safe integer
    ([Numeral.safe]); the rounding of other literals, and the overflow of
    a literal such as [1e400] to an infinity, are not modelled. *)
Definition StringToNumber (s : string) : number :=
  let t := trim_right (trim_left s) in
  match t with
  | EmptyString => of_Z 0
  | _ =>
      match NonDecimalIntegerLiteral t with
      | Some n => n
      | None =>
          let '(neg, u) := read_sign t in
          match StrUnsignedDecimalLiteral u with
          | Some n => if neg then negate n else n
          | None => NaN
          end
      end
  end.

(** *** Conversions of request values *)

Fixpoint join (sep : string) (l : list string) : string :=
  match l with
  | [] => ""
  | [x] => x
  | x :: l' => x ++ sep ++ join sep l'
  end.

(** [ToString]: an array joins its elements with commas, a plain object is
    ["[object Object]"]. *)
Fixpoint ToString (v : value) : string :=
  match v with
  | VStr s => s
  | VArr l => join "," (map ToString l)
  | VObj _ => "[object Object]"
  end.

(** [ToNumber] of a property read; [None] is [undefined]. *)
Definition ToNumber (x : option value) : number :=
  match x with
  | None => NaN
  | Some v => StringToNumber (ToString v)
  end.

(** [ToBoolean] of a property read: [undefined] and the empty string are
    falsy, arrays and objects are truthy. *)
Definition ToBoolean (x : option value) : bool :=
  match x with
  | None => false
  | Some (VStr s) => negb (s =? "")%string
  | Some _ => true
  end.

(** *** [String.prototype.split] with a one-character separator, and
    [Array.prototype.join] *)

Fixpoint split_aux (sep : ascii) (cur : string -> string) (s : string) : list string :=
  match s with
  | EmptyString => [cur ""]
  | String c r =>
      if Ascii.eqb c sep then cur "" :: split_aux sep (fun x => x) r
      else split_aux sep (fun x => cur (String c x)) r
  end.

Definition split (sep : ascii) (s : string) : list string :=
  split_aux sep (fun x => x) s.

(** *** [JSON.stringify] *)

Definition dquote : ascii := chr 34.

Definition hex_digit (n : N) : ascii :=
  chr (if n <? 10 then 48 + n else 87 + n)%N.

(** One code unit inside [QuoteJSONString]. *)
Definition escape_char (c : ascii) : string :=
  match code c with
  | 8 => "\b"
  | 9 => "\t"
  | 10 => "\n"
  | 12 => "\f"
  | 13 => "\r"
  | 34 => String "\" (String dquote "")
  | 92 => "\\"
  | n =>
      if (n <? 32)%N
      then "\u00" ++ String (hex_digit (n / 16)) (String (hex_digit (n mod 16)) "")
      else String c ""
  end%N.

Fixpoint quote_chars (s : string) : string :=
  match s with
  | EmptyString => ""
  | String c r => escape_char c ++ quote_chars r
  end.

Definition QuoteJSONString (s : string) : string :=
  String dquote (quote_chars s ++ String dquote "").

(** [SerializeJSONProperty] without an indent: arrays in brackets, objects
    in braces, members separated by commas and no white space. *)
Fixpoint JSON_stringify (v : value) : string :=
  match v with
  | VStr s => QuoteJSONString s
  | VArr l => "[" ++ join "," (map JSON_stringify l) ++ "]"
  | VObj o =>
      "{" ++ join "," (map (fun kv => QuoteJSONString (fst kv) ++ ":" ++ JSON_stringify (snd kv)) o)
          ++ "}"
  end.

(** *** [String.prototype.replace] with [/\b(gte|gt|lte|lt)\b/g] *)

Fixpoint strip_prefix (w s : string) : option string :=
  match w, s with
  | EmptyString, _ => Some s
  | String a w', String b s' => if Ascii.eqb a b then strip_prefix w' s' else None
  | String _ _, EmptyString => None
  end.

(** The assertion [\b] right after a word character: the input ends or
    continues with a character outside [\w]. *)
Definition word_end (s : string) : bool :=
  match s with
  | EmptyString => true
  | String c _ => negb (is_word_char c)
  end.

Definition alternatives : list string := ["gte"; "gt"; "lte"; "lt"].

(** [(gte|gt|lte|lt)\b] tried at the start of [s], alternatives in order. *)
Fixpoint match_alternatives (alts : list string) (s : string) : option string :=
  match alts with
  | [] => None
  | w :: alts' =>
      match strip_prefix w s with
      | Some r => if word_end r then Some w else match_alternatives alts' s
      | None => match_alternatives alts' s
      end
  end.

(** The global replace, one code unit at a time.  [prev] tells whether the
    code unit before [s] belongs to the class [cls]; with [cls] the class
    [\w] this is the leading [\b] of the pattern, since every alternative
    starts with a word character.  A match is replaced by [$] followed by
    the matched word ([matchedWord => `$${matchedWord}`]); no second match
    can start inside it, so emitting the word unit by unit is the same as
    resuming after it. *)
Fixpoint scan (cls : ascii -> bool) (prev : bool) (s : string) : string :=
  match s with
  | EmptyString => ""
  | String c r =>
      let rest := String c (scan cls (cls c) r) in
      if prev then rest
      else match match_alternatives alternatives s with
           | Some _ => String "$" rest
           | None => rest
           end
  end.

Definition replace_operators (s : string) : string := scan is_word_char false s.

(** *** [JSON.parse]

    The grammar of JSON texts restricted to strings, arrays and objects:
    a text with a number or a literal token is rejected here, and
    [filter_total] below shows that [filter] never produces one.  An escape
    [\uXXXX] above U+00FF is outside the modelled range of code units and
    is rejected as well. *)

Definition is_json_ws (c : ascii) : bool :=
  match code c with
  | 9 | 10 | 13 | 32 => true
  | _ => false
  end%N.

Fixpoint skip_ws (s : string) : string :=
  match s with
  | String c r => if is_json_ws c then skip_ws r else s
  | EmptyString => s
  end.

Definition unescape (e : ascii) : option ascii :=
  match code e with
  | 34 | 92 | 47 => Some e
  | 98 => Some (chr 8)
  | 102 => Some (chr 12)
  | 110 => Some (chr 10)
  | 114 => Some (chr 13)
  | 116 => Some (chr 9)
  | _ => None
  end%N.

Definition hex4 (a b c d : ascii) : option N :=
  match digit 16 a, digit 16 b, digit 16 c, digit 16 d with
  | Some x, Some y, Some z, Some w => Some (((x * 16 + y) * 16 + z) * 16 + w)%N
  | _, _, _, _ => None
  end.

Definition cons_char (c : ascii) (x : option (string * string)) : option (string * string) :=
  match x with
  | Some (t, rest) => Some (String c t, rest)
  | None => None
  end.

(** The characters of a string token after its opening quote: the decoded
    string and the input after the closing quote. *)
Fixpoint parse_chars (s : string) : option (string * string) :=
  match s with
  | EmptyString => None
  | String c r =>
      if (code c =? 34)%N then Some ("", r)
      else if (code c =? 92)%N then
        match r with
        | String e r1 =>
            if (code e =? 117)%N then
              match r1 with
              | String h1 (String h2 (String h3 (String h4 r2))) =>
                  match hex4 h1 h2 h3 h4 with
                  | Some n => if (n <? 256)%N then cons_char (chr n) (parse_chars r2) else None
                  | None => None
                  end
              | _ => None
              end
            else
              match unescape e with
              | Some x => cons_char x (parse_chars r1)
              | None => None
              end
        | EmptyString => None
        end
      else if is_control c then None
      else cons_char c (parse_chars r)
  end.

(** Members are added in textual order; a repeated name overwrites the
    value of the earlier member. *)
Definition from_entries (l : list (string * value)) : object :=
  fold_left (fun o kv => set_prop o (fst kv) (snd kv)) l [].

Fixpoint parse_value (fuel : nat) (s : string) : option (value * string) :=
  match fuel with
  | O => None
  | S n =>
      match skip_ws s with
      | String c r =>
          if (code c =? 34)%N then
            match parse_chars r with
            | Some (t, rest) => Some (VStr t, rest)
            | None => None
            end
          else if (code c =? 91)%N then
            match skip_ws r with
            | String c' r' =>
                if (code c' =? 93)%N then Some (VArr [], r')
                else match parse_elements n r with
                     | Some (l, rest) => Some (VArr l, rest)
                     | None => None
                     end
            | EmptyString => None
            end
          else if (code c =? 123)%N then
            match skip_ws r with
            | String c' r' =>
                if (code c' =? 125)%N then Some (VObj [], r')
                else match parse_members n r with
                     | Some (l, rest) => Some (VObj (from_entries l), rest)
                     | None => None
                     end
            | EmptyString => None
            end
          else None
      | EmptyString => None
      end
  end

with parse_elements (fuel : nat) (s : string) : option (list value * string) :=
  match fuel with
  | O => None
  | S n =>
      match parse_value n s with
      | Some (v, r) =>
          match skip_ws r with
          | String c r' =>
              if (code c =? 44)%N then
                match parse_elements n r' with
                | Some (l, rest) => Some (v :: l, rest)
                | None => None
                end
              else if (code c =? 93)%N then Some ([v], r')
              else None
          | EmptyString => None
          end
      | None => None
      end
  end

with parse_members (fuel : nat) (s : string) : option (list (string * value) * string) :=
  match fuel with
  | O => None
  | S n =>
      match skip_ws s with
      | String q r =>
          if (code q =? 34)%N then
            match parse_chars r with
            | Some (k, r1) =>
                match skip_ws r1 with
                | String c r2 =>
                    if (code c =? 58)%N then
                      match parse_value n r2 with
                      | Some (v, r3) =>
                          match skip_ws r3 with
                          | String c' r4 =>
                              if (code c' =? 44)%N then
                                match parse_members n r4 with
                                | Some (l, rest) => Some ((k, v) :: l, rest)
                                | None => None
                                end
                              else if (code c' =? 125)%N then Some ([(k, v)], r4)
                              else None
                          | EmptyString => None
                          end
                      | None => None
                      end
                    else None
                | EmptyString => None
                end
            | None => None
            end
          else None
      | EmptyString => None
      end
  end.

(** The fuel is the length of the text plus one: an array or an object
    spends two units of fuel and has two brackets, a member or an element
    spends one and has at least two code units.  [stringify_reads_back]
    below proves this fuel sufficient for every serialized value. *)
Definition JSON_parse (s : string) : option value :=
  match parse_value (S (String.length s)) s with
  | Some (v, rest) =>
      match skip_ws rest with
      | EmptyString => Some v
      | String _ _ => None
      end
  | None => None
  end.

End JS.

(* ================================================================= *)
(** ** The backend query object

    The query object comes from the object-data-mapping library, which is
    not part of the repository.  [Model.find(filter)] returns one; its
    methods [find], [sort], [select], [skip] and [limit] each record their
    argument in a slot of their own and return the query.  The descriptor
    keeps, slot by slot, what the query has been given. *)

Module Query.

Import JS.

Record t : Type := mk {
  find_args : list value;
  sort_args : list string;
  select_args : list string;
  skip_arg : option number;
  limit_arg : option number
}.

Definition Model_find (filter : value) : t :=
  mk [filter] [] [] None None.

Definition find (q : t) (criteria : value) : t :=
  mk (find_args q ++ [criteria])%list (sort_args q) (select_args q) (skip_arg q) (limit_arg q).

Definition sort (q : t) (arg : string) : t :=
  mk (find_args q) (sort_args q ++ [arg])%list (select_args q) (skip_arg q) (limit_arg q).

Definition select (q : t) (arg : string) : t :=
  mk (find_args q) (sort_args q) (select_args q ++ [arg])%list (skip_arg q) (limit_arg q).

Definition skip (q : t) (n : number) : t :=
  mk (find_args q) (sort_args q) (select_args q) (Some n) (limit_arg q).

Definition limit (q : t) (n : number) : t :=
  mk (find_args q) (sort_args q) (select_args q) (skip_arg q) (Some n).

(** [arg.split(/\s+/)] without the empty pieces. *)
Fixpoint pieces (cur : string -> string) (s : string) : list string :=
  match s with
  | EmptyString => [cur ""]
  | String c r =>
      if is_white_space c then cur "" :: pieces (fun x => x) r
      else pieces (fun x => cur (String c x)) r
  end.

Definition names (arg : string) : list string :=
  List.filter (fun f => negb (f =? "")%string) (pieces (fun x => x) arg).

(** A leading minus marks a name; the flag is [true] without it. *)
Definition signed (name : string) : string * bool :=
  match name with
  | String c r => if (code c =? 45)%N then (r, false) else (name, true)
  | EmptyString => (name, true)
  end.

Fixpoint assoc_set {A : Type} (l : list (string * A)) (k : string) (a : A) : list (string * A) :=
  match l with
  | [] => [(k, a)]
  | (k', a') :: l' =>
      if (k' =? k)%string then (k', a) :: l' else (k', a') :: assoc_set l' k a
  end.

Definition merge_names (acc : list (string * bool)) (arg : string) : list (string * bool) :=
  fold_left (fun m name => assoc_set m (fst (signed name)) (snd (signed name)))
            (names arg) acc.

Inductive direction : Type := Ascending | Descending.

Definition direction_of (flag : bool) : direction :=
  if flag then Ascending else Descending.

(** Modelled from the spec: the backend's reading of the arguments of
    [sort], which the repository does not contain.  "An ordered sequence of
    (field name, direction) pairs, direction ascending unless the field
    name is prefixed with a minus sign"; the names of an argument are
    separated by white space, as in [sort('-createdAt _id')], and a name
    given again takes the later direction. *)
Definition sort_spec (q : t) : list (string * direction) :=
  map (fun kv => (fst kv, direction_of (snd kv)))
      (fold_left merge_names (sort_args q) []).

(** A name that asks for the inclusion of the path it spells: not empty,
    without white space, without a leading sign. *)
Definition plain_name (name : string) : bool :=
  match name with
  | EmptyString => false
  | String c _ =>
      negb (code c =? 45)%N && negb (code c =? 43)%N &&
      forallb (fun x => negb (is_white_space x)) (list_ascii_of_string name)
  end.

Definition same_entries {A : Type} (l1 l2 : list A) : Prop :=
  forall x, In x l1 <-> In x l2.

(** Modelled from the spec: the backend's reading of the arguments of
    [select], which the repository does not contain.  "A set of field
    names to include", as in [select('name duration price')]; a leading
    minus excludes the field, as in [select('-__v')], "all fields except
    version/metadata".  [true] includes a path, [false] excludes it. *)
Definition projection (q : t) : list (string * bool) :=
  fold_left merge_names (select_args q) [].

End Query.

(* ================================================================= *)
(** ** The store of objects and the monad of the methods *)

Module Store.

Import JS.

Definition ref : Type := nat.

Definition heap : Type := list object.

Definition deref (h : heap) (r : ref) : object := nth r h [].

Fixpoint update (h : heap) (r : ref) (o : object) : heap :=
  match h, r with
  | [], _ => []
  | _ :: h', O => o :: h'
  | x :: h', S r' => x :: update h' r' o
  end.

Inductive error : Type :=
| TypeError (message : string)
| SyntaxError (message : string).

(** A call returns a value or throws; either way it leaves a store. *)
Inductive result (A : Type) : Type :=
| Ok (a : A) (h : heap)
| Throw (e : error) (h : heap).

Arguments Ok {A} a h.
Arguments Throw {A} e h.

Definition heap_of {A : Type} (r : result A) : heap :=
  match r with
  | Ok _ h => h
  | Throw _ h => h
  end.

Definition M (A : Type) : Type := heap -> result A.

Definition ret {A : Type} (a : A) : M A := fun h => Ok a h.

Definition bind {A B : Type} (m : M A) (f : A -> M B) : M B :=
  fun h =>
    match m h with
    | Ok a h' => f a h'
    | Throw e h' => Throw e h'
    end.

Definition throw {A : Type} (e : error) : M A := fun h => Throw e h.

(** [{ ...obj }]: a new object with the own properties of [obj]. *)
Definition spread (r : ref) : M ref :=
  fun h => Ok (List.length h) (h ++ [deref h r])%list.

(** [delete obj[k]] *)
Definition delete (r : ref) (k : string) : M unit :=
  fun h => Ok tt (update h r (delete_prop (deref h r) k)).

(** [obj[k]] *)
Definition prop (r : ref) (k : string) : M (option value) :=
  fun h => Ok (get_prop (deref h r) k) h.

Definition read (r : ref) : M object :=
  fun h => Ok (deref h r) h.

(** [list.forEach(f)] *)
Fixpoint forEach {A : Type} (l : list A) (f : A -> M unit) : M unit :=
  match l with
  | [] => ret tt
  | x :: l' => bind (f x) (fun _ => forEach l' f)
  end.

End Store.

Declare Scope js_scope.
Delimit Scope js_scope with js.

Notation "x <- m ;; k" := (Store.bind m (fun x => k))
  (at level 61, m at next level, right associativity) : js_scope.
Notation "m ;; k" := (Store.bind m (fun _ => k))
  (at level 61, right associativity) : js_scope.

(* ================================================================= *)
(** ** The class [APIFeatures] *)

Module APIFeatures.

Import JS Store.

Record t : Type := new {
  mongooseQuery : Query.t;
  expressQueryString : ref
}.

Definition set_mongooseQuery (this : t) (q : Query.t) : t :=
  new q (expressQueryString this).

Definition excludedFields : list string := ["page"; "sort"; "limit"; "fields"].

(** [JSON.parse(text)]: a value or a [SyntaxError]. *)
Definition parse (text : string) : M value :=
  match JSON_parse text with
  | Some v => ret v
  | None => throw (SyntaxError "Unexpected token in JSON")
  end.

(** [x.split(',')]: only a string has the method. *)
Definition call_split (x : option value) (name : string) : M (list string) :=
  match x with
  | Some (VStr s) => ret (split "," s)
  | _ => throw (TypeError (name ++ ".split is not a function"))
  end.

Local Open Scope js_scope.

Definition filter (this : t) : M t :=
  queryObj <- spread (expressQueryString this) ;;
  forEach excludedFields (fun el => delete queryObj el) ;;
  o <- read queryObj ;;
  let queryStr := JSON_stringify (VObj o) in
  let queryStr := replace_operators queryStr in
  criteria <- parse queryStr ;;
  ret (set_mongooseQuery this (Query.find (mongooseQuery this) criteria)).

Definition sort (this : t) : M t :=
  s <- prop (expressQueryString this) "sort" ;;
  if ToBoolean s then
    parts <- call_split s "this.expressQueryString.sort" ;;
    let sortBy := join " " parts in
    ret (set_mongooseQuery this (Query.sort (mongooseQuery this) sortBy))
  else
    ret (set_mongooseQuery this (Query.sort (mongooseQuery this) "-createdAt _id")).

Definition limitFields (this : t) : M t :=
  f <- prop (expressQueryString this) "fields" ;;
  if ToBoolean f then
    parts <- call_split f "this.expressQueryString.fields" ;;
    let fields := join " " parts in
    ret (set_mongooseQuery this (Query.select (mongooseQuery this) fields))
  else
    ret (set_mongooseQuery this (Query.select (mongooseQuery this) "-__v")).

(** [x * 1 || default] *)
Definition number_or (x : option value) (default : Z) : number :=
  or_number (mul (ToNumber x) (of_Z 1)) (of_Z default).

Definition paginate (this : t) : M t :=
  p <- prop (expressQueryString this) "page" ;;
  l <- prop (expressQueryString this) "limit" ;;
  let page := number_or p 1 in
  let limit := number_or l 100 in
  let skip := mul (sub page (of_Z 1)) limit in
  ret (set_mongooseQuery this (Query.limit (Query.skip (mongooseQuery this) skip) limit)).

(** The chain of [getAll] in src/controllers/handlerFactory.js:
    [new APIFeatures(Model.find(filter), req.query)
       .filter().sort().limitFields().paginate()]. *)
Definition features (base : value) (req_query : ref) : M t :=
  b <- filter (new (Query.Model_find base) req_query) ;;
  b <- sort b ;;
  b <- limitFields b ;;
  paginate b.

(** Calling the methods in an arbitrary order. *)
Inductive method : Type := Filter | Sort | LimitFields | Paginate.

Definition call (m : method) : t -> M t :=
  match m with
  | Filter => filter
  | Sort => sort
  | LimitFields => limitFields
  | Paginate => paginate
  end.

Fixpoint chain (ms : list method) (this : t) : M t :=
  match ms with
  | [] => ret this
  | m :: ms' => b <- call m this ;; chain ms' b
  end.

(** What the caller gets: the query descriptor to execute, or the error. *)
Definition outcome (r : result t) : Query.t + error :=
  match r with
  | Ok b _ => inl (mongooseQuery b)
  | Throw e _ => inr e
  end.

Definition descriptor (r : result t) : option Query.t :=
  match r with
  | Ok b _ => Some (mongooseQuery b)
  | Throw _ _ => None
  end.

(** The filter set: the request without the reserved keys. *)
Definition filter_set (o : object) : object :=
  fold_left delete_prop excludedFields o.

(** The effect of one method on the descriptor, as a function of the
    request object; [call_effect] below relates it to the method. *)
Definition effect (m : method) (request : object) (q : Query.t) : Query.t + error :=
  match m with
  | Filter =>
      match JSON_parse (replace_operators (JSON_stringify (VObj (filter_set request)))) with
      | Some criteria => inl (Query.find q criteria)
      | None => inr (SyntaxError "Unexpected token in JSON")
      end
  | Sort =>
      match get_prop request "sort" with
      | None | Some (VStr EmptyString) => inl (Query.sort q "-createdAt _id")
      | Some (VStr s) => inl (Query.sort q (join " " (split "," s)))
      | Some _ => inr (TypeError "this.expressQueryString.sort.split is not a function")
      end
  | LimitFields =>
      match get_prop request "fields" with
      | None | Some (VStr EmptyString) => inl (Query.select q "-__v")
      | Some (VStr s) => inl (Query.select q (join " " (split "," s)))
      | Some _ => inr (TypeError "this.expressQueryString.fields.split is not a function")
      end
  | Paginate =>
      let page := number_or (get_prop request "page") 1 in
      let limit := number_or (get_prop request "limit") 100 in
      inl (Query.limit (Query.skip q (mul (sub page (of_Z 1)) limit)) limit)
  end.

Fixpoint effects (ms : list method) (request : object) (q : Query.t) : Query.t + error :=
  match ms with
  | [] => inl q
  | m :: ms' =>
      match effect m request q with
      | inl q' => effects ms' request q'
      | inr e => inr e
      end
  end.

(** What a call leaves behind: the descriptor in the builder, or the
    error, and the store grown by [ext]. *)
Definition settle (this : t) (x : Query.t + error) (h : heap) (ext : list object) : result t :=
  match x with
  | inl q => Ok (set_mongooseQuery this q) (h ++ ext)%list
  | inr e => Throw e (h ++ ext)%list
  end.

Definition success (x : Query.t + error) : option Query.t :=
  match x with
  | inl q => Some q
  | inr _ => None
  end.

End APIFeatures.

(* ================================================================= *)
(** ** The translation of [filter], described on the tree

    [filter] rewrites the serialized request as a text.  On the tree this
    amounts to rewriting every string of the request, keys and values
    alike, at any depth. *)

Module Criteria.

Import JS.

(** In the serialized text a control character ends with a letter or a
    digit of its escape, so a word that follows one does not start at a
    word boundary. *)
Definition glued (c : ascii) : bool := is_word_char c || is_control c.

(** Every alternative of the pattern is made of word characters. *)
Definition all_word (w : string) : Prop :=
  Forall (fun c => is_word_char c = true) (list_ascii_of_string w).

(** The rewriting of one string of the request. *)
Definition rewrite (s : string) : string := scan glued false s.

(** Some position of [s] that no word or control character precedes
    starts one of [gte], [gt], [lte], [lt] as a whole word. *)
Fixpoint mentions_from (prev : bool) (s : string) : bool :=
  match s with
  | EmptyString => false
  | String c r =>
      (negb prev &&
       match match_alternatives alternatives s with Some _ => true | None => false end)
      || mentions_from (glued c) r
  end.

Definition mentions_operator (s : string) : bool := mentions_from false s.

Fixpoint rewrite_value (v : value) : value :=
  match v with
  | VStr s => VStr (rewrite s)
  | VArr l => VArr (map rewrite_value l)
  | VObj o => VObj (map (fun kv => (rewrite (fst kv), rewrite_value (snd kv))) o)
  end.

(** Some string of the tree, key or value, mentions an operator word. *)
Fixpoint mentions_value (v : value) : bool :=
  match v with
  | VStr s => mentions_operator s
  | VArr l => existsb mentions_value l
  | VObj o => existsb (fun kv => mentions_operator (fst kv) || mentions_value (snd kv)) o
  end.

(** What [JSON.parse] makes of a tree whose objects may repeat a name. *)
Fixpoint normalize (v : value) : value :=
  match v with
  | VStr s => VStr s
  | VArr l => VArr (map normalize l)
  | VObj o => VObj (from_entries (map (fun kv => (fst kv, normalize (snd kv))) o))
  end.

(** The parser reads the serialized form of [v] back, whatever follows
    it, with fuel for the length of that form. *)
Definition reads_back (v : value) : Prop :=
  forall (n : nat) (rest : string),
    (String.length (JSON_stringify v) <= n)%nat ->
    parse_value n (JSON_stringify v ++ rest) = Some (normalize v, rest).

(** Objects as the language has them: no name twice, at any depth. *)
Fixpoint well_formed (v : value) : Prop :=
  match v with
  | VStr _ => True
  | VArr l => fold_right (fun x acc => well_formed x /\ acc) True l
  | VObj o =>
      NoDup (keys o) /\ fold_right (fun kv acc => well_formed (snd kv) /\ acc) True o
  end.

End Criteria.

(* ================================================================= *)
(** ** The claims of the specification, as the specification words them *)

Module Spec.

Import JS.

(** "Comparison operator: one of greaterOrEqual | greater | lessOrEqual |
    less, translated 1:1 into the query backend's matching operators; all
    other keys are treated as equality matches." *)
Definition comparison_keys : list string := ["gte"; "gt"; "lte"; "lt"].

Definition translate_key (k : string) : string :=
  if existsb (String.eqb k) comparison_keys then "$" ++ k else k.

(** A field maps to a scalar, left as it is, or to a nested comparison
    mapping, whose comparison keys are translated. *)
Definition translate_field (v : value) : value :=
  match v with
  | VObj o => VObj (map (fun kv => (translate_key (fst kv), snd kv)) o)
  | _ => v
  end.

Definition translate (o : object) : value :=
  VObj (map (fun kv => (fst kv, translate_field (snd kv))) o).

(** A filter set in the shape the specification has in mind: the only
    mentions of an operator word are comparison keys of a nested
    mapping. *)
Definition plain_field (v : value) : bool :=
  match v with
  | VObj o =>
      forallb (fun kv =>
                 (existsb (String.eqb (fst kv)) comparison_keys
                  || negb (Criteria.mentions_operator (fst kv)))
                 && negb (Criteria.mentions_value (snd kv))) o
  | _ => negb (Criteria.mentions_value v)
  end.

Definition plain_filter (o : object) : bool :=
  forallb (fun kv => negb (Criteria.mentions_operator (fst kv)) && plain_field (snd kv)) o.

(** "If a fields string is present, splits on commas into a projection
    set.  Absent projection defaults to all fields except
    version/metadata." *)
Definition projection_set (fields : option value) : list (string * bool) :=
  match fields with
  | Some (VStr s) => map (fun f => (f, true)) (split "," s)
  | _ => [("__v", false)]
  end.

End Spec.

(* ================================================================= *)
(** ** Records of a collection and the order a sort specification induces

    Modelled from the spec: the storage backend, which the repository does
    not contain, executes a query and yields "an ordered sequence of
    records"; a record has a creation timestamp and a unique identifier,
    and the sequence respects the sort specification, path after path. *)

Module Collection.

(** A record, as far as sorting goes: the paths with an integer value
    (dates as milliseconds, identifiers as numbers). *)
Definition doc : Type := list (string * Z).

Fixpoint field (d : doc) (path : string) : option Z :=
  match d with
  | [] => None
  | (k, z) :: d' => if (k =? path)%string then Some z else field d' path
  end.

(** A missing value sorts before every value. *)
Definition compare_field (a b : option Z) : comparison :=
  match a, b with
  | None, None => Eq
  | None, Some _ => Lt
  | Some _, None => Gt
  | Some x, Some y => Z.compare x y
  end.

Fixpoint compare_by (spec : list (string * Query.direction)) (a b : doc) : comparison :=
  match spec with
  | [] => Eq
  | (path, dir) :: spec' =>
      match compare_field (field a path) (field b path) with
      | Eq => compare_by spec' a b
      | c => match dir with Query.Ascending => c | Query.Descending => CompOpp c end
      end
  end.

(** [a] may come before [b]. *)
Definition before (spec : list (string * Query.direction)) (a b : doc) : Prop :=
  compare_by spec a b <> Gt.

(** A result sequence that respects the specification. *)
Definition ordered (spec : list (string * Query.direction)) (l : list doc) : Prop :=
  StronglySorted (before spec) l.

(** The identifier is unique in a collection. *)
Definition unique_ids (l : list doc) : Prop :=
  NoDup (map (fun d => field d "_id") l) /\ Forall (fun d => field d "_id" <> None) l.

End Collection.

(* ================================================================= *)
(** ** Sample requests *)

Module Example.

Import JS.

(** A builder on [Model.find({})] whose request is the first object of
    the store. *)
Definition builder : APIFeatures.t :=
  APIFeatures.new (Query.Model_find (VObj [])) 0%nat.

(** [?difficulty=easy&sort=-price,ratingsAverage&fields=name,price&page=2&limit=5] *)
Definition scenario : Store.heap :=
  [[("difficulty", VStr "easy"); ("sort", VStr "-price,ratingsAverage");
    ("fields", VStr "name,price"); ("page", VStr "2"); ("limit", VStr "5")]].

(** [?page=2&limit=10] *)
Definition second_page : Store.heap :=
  [[("page", VStr "2"); ("limit", VStr "10")]].


(** [?sort[a]=b] *)
Definition nested_sort : Store.heap :=
  [[("sort", VObj [("a", VStr "b")])]].

(** [?fields=] *)
Definition empty_fields : Store.heap :=
  [[("fields", VStr "")]].

(** [?fields=-price] *)
Definition minus_price : Store.heap :=
  [[("fields", VStr "-price")]].

(** [?fields=name,price] *)
Definition two_fields : Store.heap :=
  [[("fields", VStr "name,price")]].

(** [?difficulty=easy] *)
Definition easy : Store.heap :=
  [[("difficulty", VStr "easy")]].

(** [?duration[gte]=5&sort=price&fields=name&page=3] *)
Definition mixed : Store.heap :=
  [[("duration", VObj [("gte", VStr "5")]); ("sort", VStr "price");
    ("fields", VStr "name"); ("page", VStr "3")]].

(** [?difficulty=easy&sort=-price&limit=5] *)
Definition cheapest : Store.heap :=
  [[("difficulty", VStr "easy"); ("sort", VStr "-price"); ("limit", VStr "5")]].

(** [?name=lt] *)
Definition named_lt : Store.heap :=
  [[("name", VStr "lt")]].

(** [?difficulty=easy&duration[gte]=5&page=2] *)
Definition long_easy : Store.heap :=
  [[("difficulty", VStr "easy"); ("duration", VObj [("gte", VStr "5")]);
    ("page", VStr "2")]].

(** [?difficulty=easy&page=2&sort=price&limit=5&fields=name] *)
Definition all_controls : Store.heap :=
  [[("difficulty", VStr "easy"); ("page", VStr "2"); ("sort", VStr "price");
    ("limit", VStr "5"); ("fields", VStr "name")]].

(** What [filter] returns on [?difficulty=easy]: the builder, whose query
    has been through [find], and the store with the copy of the request. *)
Definition easy_filtered : APIFeatures.t :=
  APIFeatures.new
    (Query.find (Query.Model_find (VObj [])) (VObj [("difficulty", VStr "easy")])) 0%nat.

Definition easy_store : Store.heap :=
  (easy ++ [[("difficulty", VStr "easy")]])%list.

(** What [filter] returns on [?fields=name,price]. *)
Definition two_fields_filtered : APIFeatures.t :=
  APIFeatures.new (Query.find (Query.Model_find (VObj [])) (VObj [])) 0%nat.

Definition two_fields_store : Store.heap :=
  (two_fields ++ [[]])%list.

(** Two records of a collection. *)
Definition older : Collection.doc := [("_id", 1%Z); ("createdAt", 100%Z)].
Definition newer : Collection.doc := [("_id", 2%Z); ("createdAt", 200%Z)].

End Example.

(* ================================================================= *)
(** ** Numerals

    The decimal numeral of an integer, as a client writes it in a query
    string and as a template literal prints an integer-valued number. *)

Module Numeral.

Import JS.

(** The digits of [n], least significant first, put in front of [tail]. *)
Fixpoint digits (fuel : nat) (n : N) (tail : string) : string :=
  match fuel with
  | O => tail
  | S f =>
      let tail' := String (chr (48 + n mod 10)) tail in
      if (n <? 10)%N then tail' else digits f (n / 10) tail'
  end.

(** A number has no more decimal digits than binary ones. *)
Definition decimal (n : N) : string :=
  digits (S (N.to_nat (N.size n))) n "".

Definition numeral (z : Z) : string :=
  if (z <? 0)%Z then String "-" (decimal (Z.abs_N z)) else decimal (Z.to_N z).

Definition is_digit (c : ascii) : bool :=
  ((48 <=? code c) && (code c <=? 57))%N.

(** The integers every JavaScript number represents exactly
    ([Number.isSafeInteger]). *)
Definition safe (z : Z) : Prop := (Z.abs z <= 9007199254740991)%Z.



End Numeral.

(* ================================================================= *)
(** ** Pieces of a parameter and shapes of a request *)

Module Pieces.

Import JS.

(** [s.split(',').join(sep)] for a one-character [sep], character by
    character: every comma becomes [sep]. *)
Fixpoint commas_to (sep : ascii) (s : string) : string :=
  match s with
  | EmptyString => ""
  | String c r => String (if Ascii.eqb c "," then sep else c) (commas_to sep r)
  end.

Definition comma_free (s : string) : Prop :=
  ~ In ","%char (list_ascii_of_string s).

(** A piece that is one name for the backend: not empty and without
    white space (a leading minus is allowed). *)
Definition solid (x : string) : bool :=
  negb (x =? "")%string &&
  forallb (fun c => negb (is_white_space c)) (list_ascii_of_string x).


(** The number of calls of [filter] in a sequence of calls. *)
Fixpoint filters (ms : list APIFeatures.method) : nat :=
  match ms with
  | [] => 0
  | APIFeatures.Filter :: ms' => S (filters ms')
  | _ :: ms' => filters ms'
  end.

End Pieces.

(* ================================================================= *)
(** ** The class [AppError] (src/utils/appError.js)

    The status code is a non-negative integer, as at every call site of
    the repository; the stack trace is left out. *)

Module AppError.

Import JS.

Record t : Type := mk {
  message : string;
  statusCode : N;
  status : string;
  isOperational : bool
}.

(** [str.startsWith(prefix)] *)
Definition startsWith (s prefix : string) : bool :=
  match strip_prefix prefix s with
  | Some _ => true
  | None => false
  end.

(** [new AppError(message, statusCode)], for a status code that is a
    natural number: the template literal [`${statusCode}`] is then its
    decimal numeral. *)
Definition new (message : string) (statusCode : N) : t :=
  mk message statusCode
     (if startsWith (Numeral.decimal statusCode) "4" then "fail" else "error")
     true.

End AppError.

(* ================================================================= *)
(** ** Request bodies and [filterObj], [updateMe]
    (src/controllers/userController.js)

    A body is what the JSON body parser produces; [updateMe] is followed
    up to the update it hands to [User.findByIdAndUpdate]. *)

Module UserController.

Import JS.

#[local] Unset Elimination Schemes.

Inductive json : Type :=
| JNull
| JBool (b : bool)
| JNum (n : number)
| JStr (s : string)
| JArr (elems : list json)
| JObj (props : list (string * json)).

#[local] Set Elimination Schemes.

(** [obj[k]] and [obj[k] = v] on the own properties of an object with
    values of any type, for an ordinary property name [k] (not
    [__proto__], whose assignment sets the prototype). *)
Fixpoint lookup {A : Type} (o : list (string * A)) (k : string) : option A :=
  match o with
  | [] => None
  | (k', v) :: o' => if (k' =? k)%string then Some v else lookup o' k
  end.

Definition assign {A : Type} (o : list (string * A)) (k : string) (v : A) : list (string * A) :=
  Query.assoc_set o k v.

(** [ToBoolean] of a property read. *)
Definition truthy (x : option json) : bool :=
  match x with
  | None | Some JNull => false
  | Some (JBool b) => b
  | Some (JNum n) => truthy_number n
  | Some (JStr s) => negb (s =? "")%string
  | Some (JArr _) | Some (JObj _) => true
  end.

(** [Object.keys(obj).forEach(el => { if (allowedFields.includes(el))
    newObj[el] = obj[el]; })] on a fresh [newObj]. *)
Definition filterObj {A : Type} (obj : list (string * A)) (allowedFields : list string)
  : list (string * A) :=
  fold_left
    (fun newObj el =>
       if existsb (String.eqb el) allowedFields then
         match lookup obj el with
         | Some v => assign newObj el v
         | None => newObj
         end
       else newObj)
    (map fst obj) [].

(** [updateMe]: the error it throws, or the update of the user document.
    [file] is the name of the uploaded photo, when there is one. *)
Definition updateMe (body : list (string * json)) (file : option string)
  : AppError.t + list (string * json) :=
  if truthy (lookup body "password") || truthy (lookup body "passwordConfirm") then
    inl (AppError.new
           "This route is not for password updates. Please use /updatePassword." 400)
  else
    let filteredBody := filterObj body ["name"; "email"] in
    inr (match file with
         | Some filename => assign filteredBody "photo" (JStr filename)
         | None => filteredBody
         end).

End UserController.

(* ================================================================= *)
(** ** [aliasTopTours] and the guard of the geospatial handlers
    (src/controllers/tourController.js) *)

Module TourController.

Import JS Store.

Local Open Scope js_scope.

(** [obj[k] = v] on an object of the store. *)
Definition assign (r : ref) (k : string) (v : value) : M unit :=
  fun h => Ok tt (update h r (set_prop (deref h r) k v)).



(** [!x] on a piece of a split string; [None] is [undefined]. *)
Definition missing (x : option string) : bool :=
  match x with
  | None => true
  | Some s => (s =? "")%string
  end.

(** [const [lat, lng] = latlng.split(','); if (!lat || !lng) throw ...],
    as in [getToursWithin] and [getDistances]. *)
Definition lat_lng (latlng : string) : AppError.t + (string * string) :=
  let parts := split "," latlng in
  let lat := nth_error parts 0 in
  let lng := nth_error parts 1 in
  if missing lat || missing lng then
    inl (AppError.new "Please provide latitude and longitude in the format lat,lng." 400)
  else
    match lat, lng with
    | Some a, Some b => inr (a, b)
    | _, _ => inl (AppError.new "Please provide latitude and longitude in the format lat,lng." 400)
    end.

End TourController.

(* ================================================================= *)
(** ** More sample data *)

Module Sample.

Import JS.

(** [?duration[gte]=5&page=9] *)
Definition long_tours : Store.heap :=
  [[("duration", VObj [("gte", VStr "5")]); ("page", VStr "9")]].


(** A body that tries to change the role along with the name. *)
Definition promotion : list (string * UserController.json) :=
  [("name", UserController.JStr "Ann"); ("role", UserController.JStr "admin");
   ("photo", UserController.JStr "x.png")].

End Sample.

(* ================================================================= *)
(** ** Properties *)

Import JS Store.

(** *** The store *)

Lemma deref_app_old (h : heap) (x : object) (r : ref) :
  (r < List.length h)%nat -> deref (h ++ [x])%list r = deref h r.
Proof.
  intros Hr. unfold deref. now rewrite app_nth1.
Qed.

Lemma deref_app_new (h : heap) (x : object) :
  deref (h ++ [x])%list (List.length h) = x.
Proof.
  unfold deref. rewrite app_nth2 by lia. now rewrite Nat.sub_diag.
Qed.

Lemma update_app_new (h : heap) (x y : object) :
  update (h ++ [x])%list (List.length h) y = (h ++ [y])%list.
Proof.
  induction h as [|o h IH]; cbn; [reflexivity|]. now rewrite IH.
Qed.

(** *** The four methods, one equation each *)

Lemma filter_run (this : APIFeatures.t) (h : heap) :
  APIFeatures.filter this h =
  let q := APIFeatures.filter_set (deref h (APIFeatures.expressQueryString this)) in
  match JSON_parse (replace_operators (JSON_stringify (VObj q))) with
  | Some criteria =>
      Ok (APIFeatures.set_mongooseQuery this
            (Query.find (APIFeatures.mongooseQuery this) criteria))
         (h ++ [q])%list
  | None => Throw (SyntaxError "Unexpected token in JSON") (h ++ [q])%list
  end.
Proof.
  unfold APIFeatures.filter, APIFeatures.filter_set, APIFeatures.excludedFields.
  unfold bind, spread, read, delete, forEach, bind, ret, APIFeatures.parse.
  cbn [fold_left].
  repeat rewrite ?deref_app_new, ?update_app_new.
  cbv zeta.
  destruct (JSON_parse _); reflexivity.
Qed.

Lemma sort_run (this : APIFeatures.t) (h : heap) :
  APIFeatures.sort this h =
  match get_prop (deref h (APIFeatures.expressQueryString this)) "sort" with
  | None | Some (VStr EmptyString) =>
      Ok (APIFeatures.set_mongooseQuery this
            (Query.sort (APIFeatures.mongooseQuery this) "-createdAt _id")) h
  | Some (VStr s) =>
      Ok (APIFeatures.set_mongooseQuery this
            (Query.sort (APIFeatures.mongooseQuery this) (join " " (split "," s)))) h
  | Some _ =>
      Throw (TypeError "this.expressQueryString.sort.split is not a function") h
  end.
Proof.
  unfold APIFeatures.sort, bind, prop.
  destruct (get_prop _ _) as [[[|c s]|l|o]|]; reflexivity.
Qed.

Lemma limitFields_run (this : APIFeatures.t) (h : heap) :
  APIFeatures.limitFields this h =
  match get_prop (deref h (APIFeatures.expressQueryString this)) "fields" with
  | None | Some (VStr EmptyString) =>
      Ok (APIFeatures.set_mongooseQuery this
            (Query.select (APIFeatures.mongooseQuery this) "-__v")) h
  | Some (VStr s) =>
      Ok (APIFeatures.set_mongooseQuery this
            (Query.select (APIFeatures.mongooseQuery this) (join " " (split "," s)))) h
  | Some _ =>
      Throw (TypeError "this.expressQueryString.fields.split is not a function") h
  end.
Proof.
  unfold APIFeatures.limitFields, bind, prop.
  destruct (get_prop _ _) as [[[|c s]|l|o]|]; reflexivity.
Qed.

Lemma paginate_run (this : APIFeatures.t) (h : heap) :
  APIFeatures.paginate this h =
  let q := deref h (APIFeatures.expressQueryString this) in
  let page := APIFeatures.number_or (get_prop q "page") 1 in
  let limit := APIFeatures.number_or (get_prop q "limit") 100 in
  Ok (APIFeatures.set_mongooseQuery this
        (Query.limit (Query.skip (APIFeatures.mongooseQuery this)
                                 (mul (sub page (of_Z 1)) limit)) limit)) h.
Proof. reflexivity. Qed.

(** *** Numbers *)



(** *** Pagination *)



(** *** The end-to-end scenario *)

Lemma deref_valid (h : heap) (r : ref) :
  deref h r <> [] -> (r < List.length h)%nat.
Proof.
  intros Hne. destruct (Nat.lt_ge_cases r (List.length h)) as [Hlt|Hge]; [exact Hlt|].
  exfalso. apply Hne. unfold deref. now apply nth_overflow.
Qed.

(** C2.  For the request [{difficulty: 'easy', sort:
    '-price,ratingsAverage', fields: 'name,price', page: '2', limit: '5'}]
    on [Model.find({})], the chain [filter().sort().limitFields().paginate()]
    succeeds; [filter] hands [{difficulty: "easy"}] to [find], the
    ordering is price descending then ratingsAverage ascending, the
    projection includes exactly name and price, and pagination is skip 5,
    limit 5. *)
Theorem features_end_to_end_scenario :
  forall (h : heap) (r : ref),
    deref h r = [("difficulty", VStr "easy"); ("sort", VStr "-price,ratingsAverage");
                 ("fields", VStr "name,price"); ("page", VStr "2"); ("limit", VStr "5")] ->
    exists this' h',
      APIFeatures.features (VObj []) r h = Ok this' h' /\
      Query.find_args (APIFeatures.mongooseQuery this') =
        [VObj []; VObj [("difficulty", VStr "easy")]] /\
      Query.sort_spec (APIFeatures.mongooseQuery this') =
        [("price", Query.Descending); ("ratingsAverage", Query.Ascending)] /\
      Query.projection (APIFeatures.mongooseQuery this') = [("name", true); ("price", true)] /\
      Query.skip_arg (APIFeatures.mongooseQuery this') = Some (of_Z 5) /\
      Query.limit_arg (APIFeatures.mongooseQuery this') = Some (of_Z 5).
Proof.
  intros h r Hq.
  assert (Hr : (r < List.length h)%nat) by (apply deref_valid; rewrite Hq; discriminate).
  assert (Hparse :
    JSON_parse (replace_operators (JSON_stringify (VObj (APIFeatures.filter_set (deref h r)))))
    = Some (VObj [("difficulty", VStr "easy")])) by (rewrite Hq; vm_compute; reflexivity).
  unfold APIFeatures.features, bind.
  rewrite filter_run. cbv zeta. cbn [APIFeatures.expressQueryString].
  rewrite Hparse.
  rewrite sort_run. cbn [APIFeatures.expressQueryString APIFeatures.set_mongooseQuery].
  rewrite deref_app_old, Hq by exact Hr. cbn [get_prop String.eqb Ascii.eqb Bool.eqb].
  rewrite limitFields_run. cbn [APIFeatures.expressQueryString APIFeatures.set_mongooseQuery].
  rewrite deref_app_old, Hq by exact Hr. cbn [get_prop String.eqb Ascii.eqb Bool.eqb].
  rewrite paginate_run. cbv zeta. cbn [APIFeatures.expressQueryString APIFeatures.set_mongooseQuery].
  rewrite deref_app_old, Hq by exact Hr.
  do 2 eexists. split; [reflexivity|].
  repeat split; vm_compute; reflexivity.
Qed.

Lemma features_end_to_end_scenario_witness :
  exists this' h',
    APIFeatures.features (VObj []) 0%nat Example.scenario = Ok this' h' /\
    Query.sort_spec (APIFeatures.mongooseQuery this') =
      [("price", Query.Descending); ("ratingsAverage", Query.Ascending)] /\
    Query.projection (APIFeatures.mongooseQuery this') = [("name", true); ("price", true)] /\
    Query.skip_arg (APIFeatures.mongooseQuery this') = Some (of_Z 5) /\
    Query.limit_arg (APIFeatures.mongooseQuery this') = Some (of_Z 5).
Proof.
  destruct (features_end_to_end_scenario Example.scenario 0%nat eq_refl)
    as (this' & h' & Hrun & _ & Hsort & Hproj & Hskip & Hlimit).
  exists this', h'. repeat split; assumption.
Defined.

(** *** Errors *)

(** C6, at the request [?sort[a]=b], that is [{sort: {a: 'b'}}]: the
    parameter is truthy and has no method [split], and [sort] throws a
    [TypeError]. *)
Theorem sort_throws_on_nested_sort_parameter :
  APIFeatures.sort Example.builder Example.nested_sort
  = Throw (TypeError "this.expressQueryString.sort.split is not a function")
          Example.nested_sort /\
  APIFeatures.outcome (APIFeatures.features (VObj []) 0%nat Example.nested_sort)
  = inr (TypeError "this.expressQueryString.sort.split is not a function").
Proof.
  split; vm_compute; reflexivity.
Qed.

(** *** Projection *)

Lemma plain_name_spec (x : string) :
  Query.plain_name x = true ->
  x <> "" /\
  forallb (fun c => negb (is_white_space c)) (list_ascii_of_string x) = true /\
  Query.signed x = (x, true).
Proof.
  destruct x as [|c x]; cbn -[is_white_space]; [discriminate|].
  intros H. apply andb_prop in H as [H Hws]. apply andb_prop in H as [Hm _].
  repeat split; [discriminate | exact Hws |].
  unfold code in *. destruct (N_of_ascii c =? 45)%N; [discriminate | reflexivity].
Qed.

Lemma pieces_no_space (s : string) :
  forall cur, forallb (fun c => negb (is_white_space c)) (list_ascii_of_string s) = true ->
              Query.pieces cur s = [cur s].
Proof.
  induction s as [|c s IH]; intros cur H; cbn -[is_white_space] in *; [reflexivity|].
  apply andb_prop in H as [Hc Hs].
  destruct (is_white_space c); [discriminate|].
  now rewrite IH.
Qed.

Lemma pieces_space (s t : string) :
  forall cur, forallb (fun c => negb (is_white_space c)) (list_ascii_of_string s) = true ->
              Query.pieces cur (s ++ String " " t) = cur s :: Query.pieces (fun x => x) t.
Proof.
  induction s as [|c s IH]; intros cur H; cbn -[is_white_space] in *; [reflexivity|].
  apply andb_prop in H as [Hc Hs].
  destruct (is_white_space c); [discriminate|].
  now rewrite IH.
Qed.

Lemma names_join (l : list string) :
  l <> [] -> Forall (fun x => Query.plain_name x = true) l ->
  Query.names (join " " l) = l.
Proof.
  intros Hne Hall. unfold Query.names.
  induction Hall as [|x l Hx Hall IH]; [contradiction|].
  apply plain_name_spec in Hx as (Hx & Hws & _).
  assert (Hnb : negb (x =? "") = true)
    by (destruct (String.eqb_spec x ""); [contradiction | reflexivity]).
  destruct l as [|y l].
  - cbn [join]. rewrite pieces_no_space by exact Hws. cbn [List.filter]. now rewrite Hnb.
  - change (join " " (x :: y :: l)) with (x ++ String " " (join " " (y :: l))).
    rewrite pieces_space by exact Hws. cbn [List.filter]. rewrite Hnb.
    f_equal. apply IH. discriminate.
Qed.

Lemma assoc_set_true (m : list (string * bool)) (k : string) :
  Forall (fun kv => snd kv = true) m ->
  Forall (fun kv => snd kv = true) (Query.assoc_set m k true) /\
  forall kv, In kv (Query.assoc_set m k true) <-> In kv m \/ kv = (k, true).
Proof.
  induction 1 as [|[k0 b0] m Hb Hall [IHa IHb]]; cbn.
  - split; [repeat constructor|]. intros kv. intuition auto.
  - cbn in Hb. subst b0. destruct (String.eqb_spec k0 k) as [->|Hne].
    + split; [constructor; [reflexivity | exact Hall]|].
      intros kv. cbn. intuition auto.
    + split; [constructor; [reflexivity | exact IHa]|].
      intros kv. cbn. rewrite IHb. intuition auto.
Qed.

Lemma merge_plain_names (l : list string) :
  Forall (fun x => Query.plain_name x = true) l ->
  forall acc, Forall (fun kv => snd kv = true) acc ->
  forall kv,
    In kv (fold_left (fun m name => Query.assoc_set m (fst (Query.signed name))
                                                    (snd (Query.signed name))) l acc)
    <-> In kv acc \/ exists n, In n l /\ kv = (n, true).
Proof.
  induction 1 as [|x l Hx Hall IH]; intros acc Hacc kv; cbn [fold_left].
  - split; [auto | intros [H|(n & [] & _)]; exact H].
  - apply plain_name_spec in Hx as (_ & _ & Hs). rewrite Hs. cbn [fst snd].
    destruct (assoc_set_true acc x Hacc) as [Ha Hb].
    rewrite (IH _ Ha), Hb. split.
    + intros [[H| ->]|(n & Hn & ->)]; [now left | right; exists x; split; [now left|reflexivity] |].
      right. exists n. split; [now right | reflexivity].
    + intros [H|(n & [<-|Hn] & ->)]; [now left; left | now left; right |].
      right. exists n. split; [exact Hn | reflexivity].
Qed.

Lemma split_not_nil (sep : ascii) (s : string) : split sep s <> [].
Proof.
  unfold split. generalize (fun x : string => x).
  induction s as [|c s IH]; intros f; cbn; [discriminate|].
  destruct (Ascii.eqb c sep); [discriminate | apply IH].
Qed.

(** C8, as the claim words it, fails at [?fields=-price]: the one piece
    of the string goes to [select] as it is, and the leading minus
    excludes [price] instead of projecting a field.  It fails at
    [?fields=] as well: the empty string is falsy, so [limitFields]
    excludes [__v] instead of projecting the pieces of the string. *)
Lemma limitFields_not_the_pieces_of_the_string :
  (exists this',
     APIFeatures.limitFields Example.builder Example.minus_price
     = Ok this' Example.minus_price /\
     Query.projection (APIFeatures.mongooseQuery this') = [("price", false)] /\
     ~ Query.same_entries
         (Query.projection (APIFeatures.mongooseQuery this'))
         (Spec.projection_set (get_prop (deref Example.minus_price 0%nat) "fields"))) /\
  (exists this',
     APIFeatures.limitFields Example.builder Example.empty_fields
     = Ok this' Example.empty_fields /\
     Query.projection (APIFeatures.mongooseQuery this') = [("__v", false)] /\
     ~ Query.same_entries
         (Query.projection (APIFeatures.mongooseQuery this'))
         (Spec.projection_set (get_prop (deref Example.empty_fields 0%nat) "fields"))).
Proof.
  split.
  - eexists. split; [reflexivity|]. split; [reflexivity|].
    intros H. destruct (H ("price", false)) as [H1 _].
    destruct H1 as [E|[]]; [left; reflexivity | discriminate E].
  - eexists. split; [reflexivity|]. split; [reflexivity|].
    intros H. destruct (H ("__v", false)) as [H1 _].
    destruct H1 as [E|[]]; [left; reflexivity | discriminate E].
Qed.

(** C8, amended.  On the query of any builder, when that query has no
    projection yet (as in [getAll], where [filter] and [sort] have run
    before): when the [fields] parameter is a non-empty string whose
    comma-separated pieces are plain names (not empty, without white space
    or a leading sign), [limitFields] projects exactly those names; when
    the parameter is absent or the empty string, it projects every field
    except [__v]. *)
Theorem limitFields_projection :
  forall (h : heap) (this : APIFeatures.t),
    Query.select_args (APIFeatures.mongooseQuery this) = [] ->
    let fields := get_prop (deref h (APIFeatures.expressQueryString this)) "fields" in
    (forall s, fields = Some (VStr s) -> s <> "" ->
               Forall (fun x => Query.plain_name x = true) (split "," s) ->
               exists this',
                 APIFeatures.limitFields this h = Ok this' h /\
                 Query.same_entries (Query.projection (APIFeatures.mongooseQuery this'))
                                    (Spec.projection_set fields)) /\
    (fields = None \/ fields = Some (VStr "") ->
     exists this',
       APIFeatures.limitFields this h = Ok this' h /\
       Query.projection (APIFeatures.mongooseQuery this') = [("__v", false)]).
Proof.
  intros h this Hargs fields. split.
  - intros s Hf Hs Hplain.
    eexists. split.
    + rewrite limitFields_run. fold fields. rewrite Hf.
      destruct s; [contradiction | reflexivity].
    + rewrite Hf. cbn [Spec.projection_set].
      unfold Query.projection.
      cbn [APIFeatures.set_mongooseQuery APIFeatures.mongooseQuery Query.select
           Query.select_args].
      rewrite Hargs. cbn [app fold_left].
      unfold Query.merge_names. rewrite names_join.
      * intros kv. rewrite (merge_plain_names _ Hplain [] (Forall_nil _)).
        rewrite in_map_iff. split.
        -- intros [[]|(n & Hn & ->)]. exists n. split; [reflexivity | exact Hn].
        -- intros (n & <- & Hn). right. exists n. split; [exact Hn | reflexivity].
      * apply split_not_nil.
      * exact Hplain.
  - intros Hf. eexists. split.
    + rewrite limitFields_run. fold fields. destruct Hf as [-> | ->]; reflexivity.
    + unfold Query.projection.
      cbn [APIFeatures.set_mongooseQuery APIFeatures.mongooseQuery Query.select
           Query.select_args].
      rewrite Hargs. reflexivity.
Qed.

Lemma limitFields_projection_witness :
  APIFeatures.filter Example.builder Example.two_fields
  = Ok Example.two_fields_filtered Example.two_fields_store /\
  exists this',
    APIFeatures.limitFields Example.two_fields_filtered Example.two_fields_store
    = Ok this' Example.two_fields_store /\
    Query.same_entries (Query.projection (APIFeatures.mongooseQuery this'))
                       [("name", true); ("price", true)].
Proof.
  split; [reflexivity|].
  destruct (limitFields_projection Example.two_fields_store Example.two_fields_filtered eq_refl)
    as [H _].
  apply (H "name,price").
  - reflexivity.
  - discriminate.
  - repeat constructor.
Defined.

(** *** The default ordering *)

Section SortedPermutation.

Variable A : Type.
Variable R : A -> A -> Prop.

(** Two sorted arrangements of the same elements coincide as soon as [R]
    is antisymmetric on them. *)
Lemma sorted_arrangement_unique (l1 : list A) :
  forall l2,
    (forall x y, In x l1 -> In y l1 -> R x y -> R y x -> x = y) ->
    StronglySorted R l1 -> StronglySorted R l2 -> Permutation l1 l2 -> l1 = l2.
Proof.
  induction l1 as [|a l1 IH]; intros l2 Hanti S1 S2 P.
  - apply Permutation_nil in P. now subst.
  - destruct l2 as [|b l2]; [apply Permutation_sym, Permutation_nil in P; discriminate|].
    apply StronglySorted_inv in S1 as [S1 F1].
    apply StronglySorted_inv in S2 as [S2 F2].
    rewrite Forall_forall in F1, F2.
    assert (Hab : a = b).
    { assert (Ha : In a (b :: l2)) by (eapply Permutation_in; [exact P | now left]).
      assert (Hb : In b (a :: l1))
        by (eapply Permutation_in; [apply Permutation_sym; exact P | now left]).
      destruct Ha as [->|Ha]; [reflexivity|].
      destruct Hb as [->|Hb]; [reflexivity|].
      apply Hanti; [now left | now right | now apply F1 | now apply F2]. }
    subst b. f_equal.
    apply IH; trivial.
    + intros x y Hx Hy. apply Hanti; now right.
    + now apply Permutation_cons_inv in P.
Qed.

End SortedPermutation.

Lemma compare_field_opp (x y : option Z) :
  Collection.compare_field y x = CompOpp (Collection.compare_field x y).
Proof.
  destruct x, y; cbn; trivial. apply Z.compare_antisym.
Qed.

Lemma compare_by_opp (spec : list (string * Query.direction)) (a b : Collection.doc) :
  Collection.compare_by spec b a = CompOpp (Collection.compare_by spec a b).
Proof.
  induction spec as [|[path dir] spec IH]; cbn; [reflexivity|].
  rewrite (compare_field_opp (Collection.field a path)).
  destruct (Collection.compare_field _ _), dir; cbn; auto.
Qed.

Lemma before_total (spec : list (string * Query.direction)) (a b : Collection.doc) :
  Collection.before spec a b \/ Collection.before spec b a.
Proof.
  unfold Collection.before. rewrite (compare_by_opp spec a b).
  destruct (Collection.compare_by spec a b); cbn; [left | left | right]; discriminate.
Qed.

Lemma compare_field_eq (x y : option Z) :
  Collection.compare_field x y = Eq -> x = y.
Proof.
  destruct x, y; cbn; try discriminate; trivial.
  intros H. apply Z.compare_eq in H. now subst.
Qed.

Lemma before_default_antisym (a b : Collection.doc) :
  let spec := [("createdAt", Query.Descending); ("_id", Query.Ascending)] in
  Collection.before spec a b -> Collection.before spec b a ->
  Collection.field a "_id" = Collection.field b "_id".
Proof.
  intros spec. unfold Collection.before. rewrite (compare_by_opp spec a b).
  intros H1 H2.
  assert (E : Collection.compare_by spec a b = Eq)
    by (destruct (Collection.compare_by spec a b); [reflexivity | now elim H2 | now elim H1]).
  clear H1 H2. cbn in E.
  destruct (Collection.compare_field (Collection.field a "createdAt") _); try discriminate.
  destruct (Collection.compare_field (Collection.field a "_id") _) eqn:F; try discriminate.
  now apply compare_field_eq.
Qed.

Lemma unique_ids_injective (l : list Collection.doc) (a b : Collection.doc) :
  Collection.unique_ids l -> In a l -> In b l ->
  Collection.field a "_id" = Collection.field b "_id" -> a = b.
Proof.
  intros [Hnd _]. induction l as [|x l IH]; [contradiction|].
  cbn in Hnd. apply NoDup_cons_iff in Hnd as [Hx Hnd].
  intros [->|Ha] [->|Hb] E; trivial.
  - elim Hx. rewrite E. now apply (in_map (fun d => Collection.field d "_id")).
  - elim Hx. rewrite <- E. now apply (in_map (fun d => Collection.field d "_id")).
  - now apply IH.
Qed.

(** C4.  Without a [sort] parameter, [sort] asks the query of any
    builder, when that query has no ordering yet (as in [getAll], where
    [filter] has run before), for creation time descending, then
    identifier ascending.  That ordering
    relates any two records, and on a collection (unique identifiers) only
    one arrangement of a set of records respects it: every execution
    returns the records in the same order. *)
Theorem sort_default_is_deterministic_total_order :
  forall (h : heap) (this : APIFeatures.t),
    get_prop (deref h (APIFeatures.expressQueryString this)) "sort" = None ->
    Query.sort_args (APIFeatures.mongooseQuery this) = [] ->
    exists this',
      APIFeatures.sort this h = Ok this' h /\
      Query.sort_spec (APIFeatures.mongooseQuery this') =
        [("createdAt", Query.Descending); ("_id", Query.Ascending)] /\
      (forall a b,
          Collection.before (Query.sort_spec (APIFeatures.mongooseQuery this')) a b \/
          Collection.before (Query.sort_spec (APIFeatures.mongooseQuery this')) b a) /\
      (forall l1 l2,
          Collection.unique_ids l1 -> Permutation l1 l2 ->
          Collection.ordered (Query.sort_spec (APIFeatures.mongooseQuery this')) l1 ->
          Collection.ordered (Query.sort_spec (APIFeatures.mongooseQuery this')) l2 ->
          l1 = l2).
Proof.
  intros h this Hs Hargs.
  eexists. split.
  { rewrite sort_run, Hs. reflexivity. }
  assert (Hspec :
    Query.sort_spec (Query.sort (APIFeatures.mongooseQuery this) "-createdAt _id")
    = [("createdAt", Query.Descending); ("_id", Query.Ascending)]).
  { unfold Query.sort_spec, Query.sort. cbn [Query.sort_args]. rewrite Hargs. reflexivity. }
  cbn [APIFeatures.set_mongooseQuery APIFeatures.mongooseQuery].
  rewrite Hspec. split; [reflexivity|]. split.
  - intros a b. apply before_total.
  - intros l1 l2 Hu P S1 S2.
    apply (sorted_arrangement_unique _ _ l1 l2 (fun x y Hx Hy Hxy Hyx =>
             unique_ids_injective l1 x y Hu Hx Hy (before_default_antisym x y Hxy Hyx)));
      assumption.
Qed.

Lemma sort_default_is_deterministic_total_order_witness :
  APIFeatures.filter Example.builder Example.easy
  = Ok Example.easy_filtered Example.easy_store /\
  exists this',
    APIFeatures.sort Example.easy_filtered Example.easy_store = Ok this' Example.easy_store /\
    Query.sort_spec (APIFeatures.mongooseQuery this') =
      [("createdAt", Query.Descending); ("_id", Query.Ascending)] /\
    Collection.ordered (Query.sort_spec (APIFeatures.mongooseQuery this'))
                       [Example.newer; Example.older] /\
    [Example.newer; Example.older] = [Example.newer; Example.older].
Proof.
  split; [reflexivity|].
  destruct (sort_default_is_deterministic_total_order
              Example.easy_store Example.easy_filtered eq_refl eq_refl)
    as (this' & Hrun & Hspec & _ & Huniq).
  assert (Hord : Collection.ordered (Query.sort_spec (APIFeatures.mongooseQuery this'))
                                    [Example.newer; Example.older]).
  { rewrite Hspec. repeat constructor. discriminate. }
  exists this'. split; [exact Hrun|]. split; [exact Hspec|]. split; [exact Hord|].
  apply Huniq.
  - split.
    + cbn. repeat constructor; cbn; intuition discriminate.
    + repeat constructor; discriminate.
  - apply Permutation_refl.
  - exact Hord.
  - exact Hord.
Defined.

(** *** The methods act on the descriptor alone *)

Lemma call_effect (m : APIFeatures.method) (this : APIFeatures.t) (h : heap) :
  exists ext,
    APIFeatures.call m this h =
    APIFeatures.settle this
      (APIFeatures.effect m (deref h (APIFeatures.expressQueryString this))
                          (APIFeatures.mongooseQuery this)) h ext.
Proof.
  destruct m; cbn [APIFeatures.call APIFeatures.effect].
  - exists [APIFeatures.filter_set (deref h (APIFeatures.expressQueryString this))].
    rewrite filter_run. cbv zeta. destruct (JSON_parse _); reflexivity.
  - exists []. rewrite sort_run. unfold APIFeatures.settle. rewrite app_nil_r.
    destruct (get_prop _ _) as [[[|c s]|l|o]|]; reflexivity.
  - exists []. rewrite limitFields_run. unfold APIFeatures.settle. rewrite app_nil_r.
    destruct (get_prop _ _) as [[[|c s]|l|o]|]; reflexivity.
  - exists []. rewrite paginate_run. unfold APIFeatures.settle. rewrite app_nil_r.
    reflexivity.
Qed.

(** The request object is never written to: a chain of calls sees the
    same request throughout, and leaves it as it was. *)
Lemma chain_effects (ms : list APIFeatures.method) :
  forall (this : APIFeatures.t) (h : heap),
    (APIFeatures.expressQueryString this < List.length h)%nat ->
    exists ext,
      APIFeatures.chain ms this h =
      APIFeatures.settle this
        (APIFeatures.effects ms (deref h (APIFeatures.expressQueryString this))
                             (APIFeatures.mongooseQuery this)) h ext.
Proof.
  induction ms as [|m ms IH]; intros this h Hr.
  - exists []. cbn. unfold ret. rewrite app_nil_r. now destruct this.
  - cbn [APIFeatures.chain APIFeatures.effects]. unfold bind.
    destruct (call_effect m this h) as [ext1 ->].
    destruct (APIFeatures.effect m _ _) as [q|e]; cbn [APIFeatures.settle].
    + destruct (IH (APIFeatures.set_mongooseQuery this q) (h ++ ext1)%list) as [ext2 ->].
      { cbn. rewrite length_app. lia. }
      cbn [APIFeatures.set_mongooseQuery APIFeatures.expressQueryString
           APIFeatures.mongooseQuery].
      unfold deref at 1. rewrite app_nth1 by exact Hr. fold (deref h (APIFeatures.expressQueryString this)).
      exists (ext1 ++ ext2)%list.
      destruct (APIFeatures.effects ms _ q); cbn; now rewrite app_assoc.
    + exists ext1. reflexivity.
Qed.

Lemma features_chain (base : value) (r : ref) (h : heap) :
  APIFeatures.features base r h =
  APIFeatures.chain [APIFeatures.Filter; APIFeatures.Sort; APIFeatures.LimitFields;
                     APIFeatures.Paginate]
                    (APIFeatures.new (Query.Model_find base) r) h.
Proof.
  unfold APIFeatures.features. cbn [APIFeatures.chain APIFeatures.call].
  unfold bind, ret.
  destruct (APIFeatures.filter _ h) as [b1 h1|]; [|reflexivity].
  destruct (APIFeatures.sort b1 h1) as [b2 h2|]; [|reflexivity].
  destruct (APIFeatures.limitFields b2 h2) as [b3 h3|]; [|reflexivity].
  destruct (APIFeatures.paginate b3 h3); reflexivity.
Qed.

Lemma descriptor_settle (this : APIFeatures.t) (x : Query.t + Store.error)
      (h : heap) (ext : list object) :
  APIFeatures.descriptor (APIFeatures.settle this x h ext) = APIFeatures.success x.
Proof. destruct x; reflexivity. Qed.

Lemma outcome_settle (this : APIFeatures.t) (x : Query.t + Store.error)
      (h : heap) (ext : list object) :
  APIFeatures.outcome (APIFeatures.settle this x h ext) = x.
Proof. destruct x; reflexivity. Qed.

Lemma heap_of_settle (this : APIFeatures.t) (x : Query.t + Store.error)
      (h : heap) (ext : list object) :
  heap_of (APIFeatures.settle this x h ext) = (h ++ ext)%list.
Proof. destruct x; reflexivity. Qed.

(** *** Order of the calls *)

Lemma permutation_of_three {A : Type} (a b c : A) (l : list A) :
  Permutation l [a; b; c] ->
  l = [a; b; c] \/ l = [a; c; b] \/ l = [b; a; c] \/
  l = [b; c; a] \/ l = [c; a; b] \/ l = [c; b; a].
Proof.
  intros P. apply Permutation_sym in P.
  assert (Hl : List.length l = 3%nat) by (apply Permutation_length in P; now rewrite <- P).
  destruct l as [|x [|y [|z [|? ?]]]]; try discriminate. clear Hl.
  assert (Hx : In x [a; b; c]) by (eapply Permutation_in; [apply Permutation_sym, P | now left]).
  destruct Hx as [<-|[<-|[<-|[]]]].
  - apply Permutation_cons_inv, Permutation_length_2_inv in P as [E|E];
      injection E as <- <-; auto.
  - assert (P' : Permutation (b :: [a; c]) (b :: [y; z]))
      by (etransitivity; [apply perm_swap | exact P]).
    apply Permutation_cons_inv, Permutation_length_2_inv in P' as [E|E];
      injection E as <- <-; auto 6.
  - assert (P' : Permutation (c :: [a; b]) (c :: [y; z])).
    { etransitivity; [|exact P].
      etransitivity; [apply perm_swap|]. apply perm_skip, perm_swap. }
    apply Permutation_cons_inv, Permutation_length_2_inv in P' as [E|E];
      injection E as <- <-; auto 7.
Qed.

Lemma effects_order (ms : list APIFeatures.method) (o : object) (q : Query.t) :
  Permutation ms [APIFeatures.Filter; APIFeatures.Sort; APIFeatures.LimitFields] ->
  APIFeatures.success (APIFeatures.effects (ms ++ [APIFeatures.Paginate]) o q) =
  APIFeatures.success
    (APIFeatures.effects [APIFeatures.Filter; APIFeatures.Sort; APIFeatures.LimitFields;
                          APIFeatures.Paginate] o q).
Proof.
  intros P. apply permutation_of_three in P.
  destruct P as [-> | [-> | [-> | [-> | [-> | ->]]]]];
    cbn [app APIFeatures.effects APIFeatures.effect];
    destruct (JSON_parse _);
    destruct (get_prop o "sort") as [[[|? ?]|?|?]|];
    destruct (get_prop o "fields") as [[[|? ?]|?|?]|];
    reflexivity.
Qed.

(** C5.  With [paginate] called last, calling [filter], [sort] and
    [limitFields] in any order yields the descriptor of the fixed order
    filter, sort, limitFields, paginate (and no descriptor at all exactly
    when the fixed order yields none). *)
Theorem chain_order_of_filter_sort_limitFields_is_irrelevant :
  forall (h : heap) (this : APIFeatures.t) (ms : list APIFeatures.method),
    (APIFeatures.expressQueryString this < List.length h)%nat ->
    Permutation ms [APIFeatures.Filter; APIFeatures.Sort; APIFeatures.LimitFields] ->
    APIFeatures.descriptor (APIFeatures.chain (ms ++ [APIFeatures.Paginate]) this h) =
    APIFeatures.descriptor
      (APIFeatures.chain [APIFeatures.Filter; APIFeatures.Sort; APIFeatures.LimitFields;
                          APIFeatures.Paginate] this h).
Proof.
  intros h this ms Hr P.
  destruct (chain_effects (ms ++ [APIFeatures.Paginate]) this h Hr) as [ext1 ->].
  destruct (chain_effects [APIFeatures.Filter; APIFeatures.Sort; APIFeatures.LimitFields;
                           APIFeatures.Paginate] this h Hr) as [ext2 ->].
  rewrite !descriptor_settle. now apply effects_order.
Qed.

Lemma chain_order_of_filter_sort_limitFields_is_irrelevant_witness :
  APIFeatures.descriptor
    (APIFeatures.chain [APIFeatures.LimitFields; APIFeatures.Sort; APIFeatures.Filter;
                        APIFeatures.Paginate] Example.builder Example.mixed) =
  APIFeatures.descriptor
    (APIFeatures.chain [APIFeatures.Filter; APIFeatures.Sort; APIFeatures.LimitFields;
                        APIFeatures.Paginate] Example.builder Example.mixed).
Proof.
  apply (chain_order_of_filter_sort_limitFields_is_irrelevant Example.mixed Example.builder
           [APIFeatures.LimitFields; APIFeatures.Sort; APIFeatures.Filter]).
  - cbn. lia.
  - apply Permutation_sym.
    apply (Permutation_rev [APIFeatures.Filter; APIFeatures.Sort; APIFeatures.LimitFields]).
Defined.

(** *** Two builders on the same input *)

(** C9.  Two builders constructed on the same base filter and on requests
    with the same content (the same object, or two equal ones), run one
    after the other, end with the same descriptor or with the same error:
    the first run leaves the request as it found it. *)
Theorem features_twice_same_outcome :
  forall (h : heap) (base : value) (r1 r2 : ref),
    (r1 < List.length h)%nat -> (r2 < List.length h)%nat ->
    deref h r1 = deref h r2 ->
    let first := APIFeatures.features base r1 h in
    deref (heap_of first) r1 = deref h r1 /\
    APIFeatures.outcome (APIFeatures.features base r2 (heap_of first)) =
    APIFeatures.outcome first.
Proof.
  intros h base r1 r2 H1 H2 E first. subst first.
  rewrite !features_chain.
  destruct (chain_effects [APIFeatures.Filter; APIFeatures.Sort; APIFeatures.LimitFields;
                           APIFeatures.Paginate]
                          (APIFeatures.new (Query.Model_find base) r1) h H1) as [ext1 ->].
  rewrite heap_of_settle, outcome_settle.
  cbn [APIFeatures.expressQueryString APIFeatures.mongooseQuery].
  split.
  - unfold deref. now rewrite app_nth1.
  - destruct (chain_effects [APIFeatures.Filter; APIFeatures.Sort; APIFeatures.LimitFields;
                             APIFeatures.Paginate]
                            (APIFeatures.new (Query.Model_find base) r2) (h ++ ext1)%list)
      as [ext2 ->].
    { cbn. rewrite length_app. lia. }
    rewrite outcome_settle.
    cbn [APIFeatures.expressQueryString APIFeatures.mongooseQuery].
    unfold deref at 1. rewrite app_nth1 by exact H2.
    fold (deref h r2). now rewrite E.
Qed.

Lemma features_twice_same_outcome_witness :
  APIFeatures.outcome
    (APIFeatures.features (VObj []) 0%nat
       (heap_of (APIFeatures.features (VObj []) 0%nat Example.cheapest))) =
  APIFeatures.outcome (APIFeatures.features (VObj []) 0%nat Example.cheapest).
Proof.
  apply (features_twice_same_outcome Example.cheapest (VObj []) 0%nat 0%nat);
    [cbn; lia | cbn; lia | reflexivity].
Defined.

(** *** Strings *)

Lemma append_assoc (a b c : string) : (a ++ b) ++ c = a ++ (b ++ c).
Proof. induction a as [|x a IH]; cbn; [reflexivity | now rewrite IH]. Qed.

Lemma append_nil_r (a : string) : a ++ "" = a.
Proof. induction a as [|x a IH]; cbn; [reflexivity | now rewrite IH]. Qed.

Lemma length_append (a b : string) :
  String.length (a ++ b) = (String.length a + String.length b)%nat.
Proof. induction a as [|x a IH]; cbn; [reflexivity | now rewrite IH]. Qed.

(** *** The replacement, piece by piece *)

Lemma alternatives_all_word : Forall Criteria.all_word alternatives.
Proof. repeat constructor. Qed.

Lemma eqb_word_nonword (a c : ascii) :
  is_word_char a = true -> is_word_char c = false -> Ascii.eqb a c = false.
Proof.
  intros Ha Hc. destruct (Ascii.eqb_spec a c) as [->|]; [congruence | reflexivity].
Qed.

(** A word cannot run over a character outside [\w]. *)
Lemma strip_prefix_before_nonword (w : string) :
  Criteria.all_word w ->
  forall (u : string) (c : ascii) (t : string),
    is_word_char c = false ->
    strip_prefix w (u ++ String c t) =
    option_map (fun r => r ++ String c t) (strip_prefix w u).
Proof.
  induction w as [|a w IH]; intros Hw u c t Hc; [reflexivity|].
  inversion Hw as [|? ? Ha Hw']; subst.
  destruct u as [|b u]; cbn.
  - now rewrite (eqb_word_nonword a c Ha Hc).
  - destruct (Ascii.eqb a b); [now apply IH | reflexivity].
Qed.

Lemma word_end_before_nonword (r : string) (c : ascii) (t : string) :
  is_word_char c = false -> word_end (r ++ String c t) = word_end r.
Proof.
  intros Hc. destruct r; cbn; [now rewrite Hc | reflexivity].
Qed.

Lemma match_before_nonword (alts : list string) :
  Forall Criteria.all_word alts ->
  forall (u : string) (c : ascii) (t : string),
    is_word_char c = false ->
    match_alternatives alts (u ++ String c t) = match_alternatives alts u.
Proof.
  induction 1 as [|w alts Hw Halts IH]; intros u c t Hc; cbn; [reflexivity|].
  rewrite (strip_prefix_before_nonword w Hw u c t Hc), (IH u c t Hc).
  destruct (strip_prefix w u) as [r|]; cbn; [|reflexivity].
  now rewrite word_end_before_nonword.
Qed.

Lemma strip_prefix_nonword (w : string) (c : ascii) (t : string) :
  Criteria.all_word w -> w <> "" -> is_word_char c = false -> strip_prefix w (String c t) = None.
Proof.
  intros Hw Hne Hc. destruct w as [|a w]; [contradiction|].
  inversion Hw; subst. cbn. now rewrite (eqb_word_nonword a c).
Qed.

Lemma match_nonword (c : ascii) (t : string) :
  is_word_char c = false -> match_alternatives alternatives (String c t) = None.
Proof.
  intros Hc. unfold alternatives, match_alternatives.
  rewrite !strip_prefix_nonword; trivial; try discriminate; repeat constructor.
Qed.

Lemma scan_nonword (cls : ascii -> bool) (p : bool) (c : ascii) (t : string) :
  is_word_char c = false -> scan cls p (String c t) = String c (scan cls (cls c) t).
Proof.
  intros Hc. cbn [scan]. rewrite (match_nonword c t Hc). now destruct p.
Qed.

(** The replacement works on each side of a character outside [\w]
    separately. *)
Lemma scan_split (s : string) :
  forall (p : bool) (c : ascii) (t : string),
    is_word_char c = false ->
    scan is_word_char p (s ++ String c t) =
    scan is_word_char p s ++ String c (scan is_word_char false t).
Proof.
  induction s as [|a s IH]; intros p c t Hc.
  - cbn [append]. rewrite scan_nonword by exact Hc. now rewrite Hc.
  - change (String a s ++ String c t) with (String a (s ++ String c t)).
    cbn [scan].
    change (String a (s ++ String c t)) with (String a s ++ String c t).
    rewrite (match_before_nonword alternatives alternatives_all_word (String a s) c t Hc).
    rewrite (IH (is_word_char a) c t Hc).
    destruct p; [reflexivity|].
    destruct (match_alternatives alternatives (String a s)); reflexivity.
Qed.

(** *** The replacement inside a quoted string *)

Ltac each_char c := destruct c as [[|] [|] [|] [|] [|] [|] [|] [|]].

Lemma escape_word_char (c : ascii) :
  is_word_char c = true -> escape_char c = String c "".
Proof. each_char c; intros H; try discriminate H; reflexivity. Qed.

Lemma escape_nonword_char (c : ascii) :
  is_word_char c = false ->
  exists x tl, escape_char c = String x tl /\ is_word_char x = false.
Proof.
  each_char c; intros H; try discriminate H; do 2 eexists; split; reflexivity.
Qed.

Lemma scan_escape (c : ascii) :
  is_word_char c = false ->
  forall (p : bool) (t : string),
    scan is_word_char p (escape_char c ++ t) =
    escape_char c ++ scan is_word_char (Criteria.glued c) t.
Proof.
  each_char c; intros H; try discriminate H; intros [|] t; reflexivity.
Qed.

Lemma strip_prefix_quote (w : string) :
  Criteria.all_word w ->
  forall s, strip_prefix w (quote_chars s) = option_map quote_chars (strip_prefix w s).
Proof.
  induction w as [|a w IH]; intros Hw s; [reflexivity|].
  inversion Hw as [|? ? Ha Hw']; subst.
  destruct s as [|c s]; [reflexivity|].
  cbn [quote_chars]. destruct (is_word_char c) eqn:Hc.
  - rewrite (escape_word_char c Hc). cbn.
    destruct (Ascii.eqb a c); [now apply IH | reflexivity].
  - destruct (escape_nonword_char c Hc) as (x & tl & -> & Hx). cbn.
    now rewrite (eqb_word_nonword a x Ha Hx), (eqb_word_nonword a c Ha Hc).
Qed.

Lemma word_end_quote (s : string) : word_end (quote_chars s) = word_end s.
Proof.
  destruct s as [|c s]; [reflexivity|].
  cbn [quote_chars word_end]. destruct (is_word_char c) eqn:Hc.
  - rewrite (escape_word_char c Hc). cbn. now rewrite Hc.
  - destruct (escape_nonword_char c Hc) as (x & tl & -> & Hx). cbn. now rewrite Hx.
Qed.

Lemma match_quote (alts : list string) :
  Forall Criteria.all_word alts ->
  forall s, match_alternatives alts (quote_chars s) = match_alternatives alts s.
Proof.
  induction 1 as [|w alts Hw Halts IH]; intros s; cbn; [reflexivity|].
  rewrite (strip_prefix_quote w Hw s), (IH s).
  destruct (strip_prefix w s) as [r|]; cbn; [|reflexivity].
  now rewrite word_end_quote.
Qed.

(** Replacing in the quoted form of a string is quoting the rewritten
    string. *)
Lemma scan_quote (s : string) :
  forall p, scan is_word_char p (quote_chars s) = quote_chars (scan Criteria.glued p s).
Proof.
  induction s as [|c s IH]; intros p; [reflexivity|].
  destruct (is_word_char c) eqn:Hc.
  - assert (Hg : Criteria.glued c = true) by (unfold Criteria.glued; now rewrite Hc).
    cbn [scan]. rewrite Hg.
    rewrite <- (match_quote alternatives alternatives_all_word (String c s)).
    cbn [quote_chars]. rewrite (escape_word_char c Hc).
    change (String c "" ++ quote_chars s) with (String c (quote_chars s)).
    cbn [scan]. rewrite Hc, IH.
    destruct p; [cbn; now rewrite (escape_word_char c Hc)|].
    destruct (match_alternatives alternatives (String c (quote_chars s)));
      cbn; now rewrite (escape_word_char c Hc).
  - rewrite (scan_nonword Criteria.glued p c s Hc).
    cbn [quote_chars]. rewrite <- IH. apply scan_escape, Hc.
Qed.

(** *** Reading back a quoted string *)

Lemma parse_chars_escape (c : ascii) (t : string) :
  parse_chars (escape_char c ++ t) = cons_char c (parse_chars t).
Proof. each_char c; reflexivity. Qed.

Lemma parse_chars_quote (s : string) (rest : string) :
  parse_chars (quote_chars s ++ String dquote rest) = Some (s, rest).
Proof.
  induction s as [|c s IH]; [reflexivity|].
  cbn [quote_chars]. rewrite append_assoc, parse_chars_escape, IH. reflexivity.
Qed.

(** *** The replacement on a serialized value *)

Lemma scan_quoted (s rest : string) :
  scan is_word_char false (QuoteJSONString s ++ rest) =
  QuoteJSONString (Criteria.rewrite s) ++ scan is_word_char false rest.
Proof.
  unfold QuoteJSONString, Criteria.rewrite.
  cbn [append]. rewrite !append_assoc. cbn [append].
  rewrite scan_nonword by reflexivity.
  change (is_word_char dquote) with false.
  rewrite scan_split by reflexivity.
  now rewrite scan_quote.
Qed.

Lemma scan_join {A : Type} (f g : A -> string) (l : list A) :
  Forall (fun x => forall rest,
              scan is_word_char false (f x ++ rest) = g x ++ scan is_word_char false rest) l ->
  forall (c : ascii) (rest : string),
    is_word_char c = false ->
    scan is_word_char false (join "," (map f l) ++ String c rest) =
    join "," (map g l) ++ String c (scan is_word_char false rest).
Proof.
  induction 1 as [|x l Hx Hl IH]; intros c rest Hc.
  - cbn [map join append]. rewrite scan_nonword by exact Hc. now rewrite Hc.
  - destruct l as [|y l].
    + cbn [map join]. rewrite Hx, scan_nonword by exact Hc. now rewrite Hc.
    + change (join "," (map f (x :: y :: l)))
        with (f x ++ String "," (join "," (map f (y :: l)))).
      change (join "," (map g (x :: y :: l)))
        with (g x ++ String "," (join "," (map g (y :: l)))).
      rewrite !append_assoc. cbn [append].
      rewrite Hx, scan_nonword by reflexivity.
      change (is_word_char ",") with false.
      now rewrite (IH c rest Hc).
Qed.

Lemma scan_stringify (v : value) :
  forall rest,
    scan is_word_char false (JSON_stringify v ++ rest) =
    JSON_stringify (Criteria.rewrite_value v) ++ scan is_word_char false rest.
Proof.
  induction v as [s|l IH|o IH] using value_ind; intros rest.
  - apply scan_quoted.
  - cbn [JSON_stringify Criteria.rewrite_value].
    rewrite map_map. cbn [append]. rewrite !append_assoc. cbn [append].
    rewrite scan_nonword by reflexivity. change (is_word_char "[") with false.
    f_equal. now apply scan_join.
  - cbn [JSON_stringify Criteria.rewrite_value].
    rewrite map_map. cbn [append fst snd]. rewrite !append_assoc. cbn [append].
    rewrite scan_nonword by reflexivity. change (is_word_char "{") with false.
    f_equal. apply scan_join; [|reflexivity].
    eapply Forall_impl; [|exact IH].
    intros [k v] Hv rest'. cbn [fst snd] in *.
    rewrite !append_assoc, scan_quoted. cbn [append].
    rewrite scan_nonword by reflexivity. change (is_word_char ":") with false.
    now rewrite Hv.
Qed.

Lemma replace_stringify (v : value) :
  replace_operators (JSON_stringify v) = JSON_stringify (Criteria.rewrite_value v).
Proof.
  unfold replace_operators.
  rewrite <- (append_nil_r (JSON_stringify v)), scan_stringify.
  cbn [scan]. apply append_nil_r.
Qed.

(** *** Reading back a serialized value *)

Lemma stringify_head (v : value) :
  exists c t, JSON_stringify v = String c t /\
              is_json_ws c = false /\ (code c =? 93)%N = false /\ (code c =? 125)%N = false.
Proof.
  destruct v; cbn [JSON_stringify]; do 2 eexists; (split; [reflexivity|]);
    repeat split; reflexivity.
Qed.

Lemma parse_elements_join (l : list value) :
  l <> [] -> Forall Criteria.reads_back l ->
  forall (n : nat) (rest : string),
    (String.length (join "," (map JSON_stringify l)) < n)%nat ->
    parse_elements n (join "," (map JSON_stringify l) ++ String "]" rest) =
    Some (map Criteria.normalize l, rest).
Proof.
  intros Hne H. induction H as [|x l Hx Hl IH]; [contradiction|]. clear Hne.
  intros [|m] rest Hn; [lia|].
  destruct l as [|y l].
  - cbn [map join] in *. cbn [parse_elements].
    rewrite Hx by lia. reflexivity.
  - change (join "," (map JSON_stringify (x :: y :: l)))
      with (JSON_stringify x ++ String "," (join "," (map JSON_stringify (y :: l)))) in *.
    rewrite length_append in Hn. cbn [String.length] in Hn.
    rewrite append_assoc. cbn [append parse_elements].
    rewrite Hx by lia. cbn [skip_ws is_json_ws code N_of_ascii N_of_digits].
    cbn -[parse_elements map join].
    rewrite IH; [reflexivity | discriminate | lia].
Qed.

Lemma parse_members_join (o : list (string * value)) :
  o <> [] -> Forall (fun kv => Criteria.reads_back (snd kv)) o ->
  forall (n : nat) (rest : string),
    (String.length
       (join "," (map (fun kv => QuoteJSONString (fst kv) ++ ":" ++ JSON_stringify (snd kv)) o))
     < n)%nat ->
    parse_members n
      (join "," (map (fun kv => QuoteJSONString (fst kv) ++ ":" ++ JSON_stringify (snd kv)) o)
       ++ String "}" rest) =
    Some (map (fun kv => (fst kv, Criteria.normalize (snd kv))) o, rest).
Proof.
  intros Hne H. induction H as [|[k v] o Hv Ho IH]; [contradiction|]. clear Hne.
  intros [|m] rest Hn; [lia|]. cbn [fst snd] in Hv.
  set (member := fun kv : string * value =>
                   QuoteJSONString (fst kv) ++ ":" ++ JSON_stringify (snd kv)) in *.
  assert (Hhead : forall tail,
    parse_members (S m) (member (k, v) ++ tail) =
    match parse_value m (JSON_stringify v ++ tail) with
    | Some (v', r3) =>
        match skip_ws r3 with
        | String c' r4 =>
            if (code c' =? 44)%N then
              match parse_members m r4 with
              | Some (l, rest) => Some ((k, v') :: l, rest)
              | None => None
              end
            else if (code c' =? 125)%N then Some ([(k, v')], r4)
            else None
        | EmptyString => None
        end
    | None => None
    end).
  { intros tail. unfold member, QuoteJSONString. cbn [fst snd append].
    rewrite !append_assoc. cbn [append parse_members skip_ws].
    change (is_json_ws dquote) with false. cbv iota.
    change (code dquote =? 34)%N with true. cbv iota.
    rewrite parse_chars_quote. reflexivity. }
  destruct o as [|kv o].
  - cbn [map join] in *. rewrite Hhead.
    unfold member in Hn. cbn [fst snd] in Hn. rewrite !length_append in Hn.
    rewrite Hv by lia. reflexivity.
  - change (join "," (map member ((k, v) :: kv :: o)))
      with (member (k, v) ++ String "," (join "," (map member (kv :: o)))) in *.
    rewrite length_append in Hn. cbn [String.length] in Hn.
    unfold member at 1 in Hn. cbn [fst snd] in Hn. rewrite !length_append in Hn.
    rewrite append_assoc. rewrite Hhead. cbn [append].
    rewrite Hv by lia.
    cbn -[parse_members map join].
    rewrite IH; [reflexivity | discriminate | lia].
Qed.

Lemma stringify_reads_back (v : value) : Criteria.reads_back v.
Proof.
  induction v as [s|l IH|o IH] using value_ind; intros n rest Hn.
  - destruct n as [|n]; [cbn in Hn; lia|].
    cbn [JSON_stringify]. unfold QuoteJSONString. cbn [append parse_value skip_ws].
    change (is_json_ws dquote) with false. cbv iota.
    change (code dquote =? 34)%N with true. cbv iota.
    rewrite append_assoc. cbn [append]. now rewrite parse_chars_quote.
  - cbn [JSON_stringify] in *. cbn [append] in Hn. cbn [String.length] in Hn.
    rewrite length_append in Hn. cbn [String.length] in Hn.
    destruct n as [|n]; [lia|].
    cbn [append]. rewrite append_assoc. cbn [append].
    destruct l as [|x l]; [reflexivity|].
    assert (Hp : parse_elements n
                   (join "," (map JSON_stringify (x :: l)) ++ String "]" rest) =
                 Some (map Criteria.normalize (x :: l), rest))
      by (apply parse_elements_join; [discriminate | exact IH | lia]).
    destruct (stringify_head x) as (c & t & Hx & Hws & H93 & _).
    cbn [parse_value skip_ws]. change (is_json_ws "[") with false. cbv iota.
    change (code "[" =? 34)%N with false. change (code "[" =? 91)%N with true. cbv iota.
    rewrite Hp.
    destruct l as [|y l]; cbn [map join]; rewrite Hx; cbn [append skip_ws];
      rewrite Hws, H93; reflexivity.
  - cbn [JSON_stringify] in *. cbn [append] in Hn. cbn [String.length] in Hn.
    rewrite length_append in Hn. cbn [String.length] in Hn.
    destruct n as [|n]; [lia|].
    cbn [append]. rewrite append_assoc. cbn [append].
    destruct o as [|[k x] o]; [reflexivity|].
    assert (Hp := parse_members_join ((k, x) :: o)).
    specialize (Hp ltac:(discriminate) IH n rest). cbn [append] in Hp.
    assert (Hlt : (String.length
                     (join "," (map (fun kv : string * value =>
                                       QuoteJSONString (fst kv) ++
                                       String ":" (JSON_stringify (snd kv)))
                                    ((k, x) :: o))) < n)%nat) by lia.
    specialize (Hp Hlt).
    cbn [parse_value skip_ws]. change (is_json_ws "{") with false. cbv iota.
    change (code "{" =? 34)%N with false. change (code "{" =? 91)%N with false.
    change (code "{" =? 123)%N with true. cbv iota.
    rewrite Hp.
    destruct o as [|y o]; cbn [map join fst snd]; unfold QuoteJSONString; cbn [append skip_ws];
      reflexivity.
Qed.

(** [JSON.parse] after the replacement after [JSON.stringify]: always a
    value, namely the request with every string rewritten. *)
Lemma parse_replace_stringify (v : value) :
  JSON_parse (replace_operators (JSON_stringify v)) =
  Some (Criteria.normalize (Criteria.rewrite_value v)).
Proof.
  rewrite replace_stringify. unfold JSON_parse.
  rewrite <- (append_nil_r (JSON_stringify (Criteria.rewrite_value v))) at 2.
  rewrite stringify_reads_back by lia. reflexivity.
Qed.

(** *** [filter] never fails *)

Lemma filter_total (this : APIFeatures.t) (h : heap) :
  let request := APIFeatures.filter_set (deref h (APIFeatures.expressQueryString this)) in
  APIFeatures.filter this h =
  Ok (APIFeatures.set_mongooseQuery this
        (Query.find (APIFeatures.mongooseQuery this)
                    (Criteria.normalize (Criteria.rewrite_value (VObj request)))))
     (h ++ [request])%list.
Proof.
  cbv zeta. rewrite filter_run. cbv zeta. now rewrite parse_replace_stringify.
Qed.

(** *** The rewriting of one string *)

Lemma rewrite_alternatives (w : string) :
  In w alternatives -> Criteria.rewrite w = "$" ++ w.
Proof.
  intros [<-|[<-|[<-|[<-|[]]]]]; reflexivity.
Qed.

Lemma scan_unmentioned (s : string) :
  forall p, Criteria.mentions_from p s = false -> scan Criteria.glued p s = s.
Proof.
  induction s as [|c s IH]; intros p H; [reflexivity|].
  cbn [Criteria.mentions_from] in H. apply orb_false_elim in H as [Hhere Hrest].
  cbn [scan]. rewrite (IH _ Hrest).
  destruct p; [reflexivity|].
  destruct (match_alternatives alternatives (String c s)); [discriminate | reflexivity].
Qed.

Lemma rewrite_unmentioned (s : string) :
  Criteria.mentions_operator s = false -> Criteria.rewrite s = s.
Proof. apply scan_unmentioned. Qed.

(** A rewritten string either is the string itself or has a dollar sign. *)
Lemma scan_same_or_dollar (s : string) :
  forall p, scan Criteria.glued p s = s \/ In "$"%char (list_ascii_of_string (scan Criteria.glued p s)).
Proof.
  induction s as [|c s IH]; intros p; [now left|].
  cbn [scan]. destruct (IH (Criteria.glued c)) as [E|Hin].
  - destruct p; [left; now rewrite E|].
    destruct (match_alternatives alternatives (String c s)).
    + right. now left.
    + left. now rewrite E.
  - right. destruct p; [cbn; now right|].
    destruct (match_alternatives alternatives (String c s)); cbn; auto.
Qed.

(** *** Reserved keys *)

Lemma keys_delete_prop (o : object) (k k' : string) :
  In k' (keys (delete_prop o k)) -> In k' (keys o) /\ k' <> k.
Proof.
  induction o as [|[k0 v0] o IH]; cbn; [contradiction|].
  destruct (String.eqb_spec k0 k) as [->|Hne].
  - intros H. apply IH in H as [H1 H2]. auto.
  - cbn. intros [<-|H]; [auto|]. apply IH in H as [H1 H2]. auto.
Qed.

Lemma keys_filter_set (o : object) (k : string) :
  In k (keys (APIFeatures.filter_set o)) ->
  In k (keys o) /\ ~ In k APIFeatures.excludedFields.
Proof.
  unfold APIFeatures.filter_set, APIFeatures.excludedFields. cbn [fold_left].
  intros H.
  apply keys_delete_prop in H as [H H4].
  apply keys_delete_prop in H as [H H3].
  apply keys_delete_prop in H as [H H2].
  apply keys_delete_prop in H as [H H1].
  split; [exact H|]. cbn. intuition congruence.
Qed.

Lemma keys_set_prop (o : object) (k : string) (v : value) (k' : string) :
  In k' (keys (set_prop o k v)) -> In k' (keys o) \/ k' = k.
Proof.
  induction o as [|[k0 v0] o IH]; cbn.
  - intros [<-|[]]. now right.
  - destruct (String.eqb_spec k0 k) as [->|Hne]; cbn.
    + intros [<-|H]; auto.
    + intros [<-|H]; [auto|]. apply IH in H as [H|H]; auto.
Qed.

Lemma keys_from_entries (l : list (string * value)) (k : string) :
  In k (keys (from_entries l)) -> In k (map fst l).
Proof.
  unfold from_entries.
  assert (G : forall acc, In k (keys (fold_left (fun o kv => set_prop o (fst kv) (snd kv)) l acc)) ->
                          In k (keys acc) \/ In k (map fst l)).
  { induction l as [|[k0 v0] l IH]; intros acc H; cbn in *; [now left|].
    apply IH in H as [H|H]; [|now right; right].
    apply keys_set_prop in H as [H| ->]; [now left | right; now left]. }
  intros H. apply G in H as [[]|H]. exact H.
Qed.

Lemma get_prop_absent (o : object) (k : string) :
  ~ In k (keys o) -> get_prop o k = None.
Proof.
  induction o as [|[k0 v0] o IH]; intros Ho; [reflexivity|].
  cbn in *. destruct (String.eqb_spec k0 k) as [->|Hne]; [elim Ho; now left|].
  apply IH. intros H. apply Ho. now right.
Qed.

(** C7.  [filter] deletes the four reserved keys [page], [sort], [limit]
    and [fields] from its copy of the request before it serializes it, and
    none of them is a top-level field name of the criteria it hands to
    [find]. *)
Theorem filter_criteria_have_no_reserved_key :
  forall (h : heap) (this : APIFeatures.t),
    let request := deref h (APIFeatures.expressQueryString this) in
    exists this' criteria,
      APIFeatures.filter this h = Ok this' (h ++ [APIFeatures.filter_set request])%list /\
      Query.find_args (APIFeatures.mongooseQuery this') =
        (Query.find_args (APIFeatures.mongooseQuery this) ++ [VObj criteria])%list /\
      forall k, In k APIFeatures.excludedFields ->
                ~ In k (keys (APIFeatures.filter_set request)) /\
                ~ In k (keys criteria) /\
                get_prop criteria k = None.
Proof.
  intros h this request.
  set (criteria :=
         from_entries
           (map (fun kv => (fst kv, Criteria.normalize (snd kv)))
                (map (fun kv => (Criteria.rewrite (fst kv), Criteria.rewrite_value (snd kv)))
                     (APIFeatures.filter_set request)))).
  exists (APIFeatures.set_mongooseQuery this
            (Query.find (APIFeatures.mongooseQuery this) (VObj criteria))), criteria.
  split; [apply filter_total|]. split; [reflexivity|].
  assert (Hset : forall k, In k APIFeatures.excludedFields ->
                           ~ In k (keys (APIFeatures.filter_set request))).
  { intros k Hk Hin. now apply keys_filter_set in Hin as [_ Hin]. }
  assert (Hcrit : forall k, In k APIFeatures.excludedFields -> ~ In k (keys criteria)).
  { intros k Hk Hin. apply keys_from_entries in Hin.
    rewrite !map_map in Hin. cbn [fst] in Hin.
    apply in_map_iff in Hin as ([k0 v0] & Hrw & Hin0). cbn [fst] in Hrw.
    assert (Hk0 : In k0 (keys (APIFeatures.filter_set request)))
      by (apply in_map_iff; exists (k0, v0); auto).
    destruct (scan_same_or_dollar k0 false) as [E|Hd].
    - unfold Criteria.rewrite in Hrw. rewrite E in Hrw. subst k0.
      now apply (Hset k Hk).
    - unfold Criteria.rewrite in Hrw. rewrite Hrw in Hd.
      destruct Hk as [<-|[<-|[<-|[<-|[]]]]]; cbn in Hd; intuition discriminate. }
  intros k Hk. split; [now apply Hset|]. split; [now apply Hcrit|].
  apply get_prop_absent. now apply Hcrit.
Qed.

(** *** The rewriting is injective *)

Lemma match_head (c : ascii) (r w : string) :
  match_alternatives alternatives (String c r) = Some w -> c = "g"%char \/ c = "l"%char.
Proof.
  each_char c; intros H; try (left; reflexivity); try (right; reflexivity);
    cbn in H; discriminate H.
Qed.

Lemma scan_cons_not_nil (cls : ascii -> bool) (p : bool) (c : ascii) (r : string) :
  scan cls p (String c r) <> "".
Proof.
  cbn [scan]. destruct p; [discriminate|].
  destruct (match_alternatives alternatives (String c r)); discriminate.
Qed.

Lemma scan_injective (n : nat) :
  forall (s1 s2 : string) (p : bool),
    (String.length s1 <= n)%nat ->
    scan Criteria.glued p s1 = scan Criteria.glued p s2 -> s1 = s2.
Proof.
  induction n as [|n IH]; intros s1 s2 p Hn E.
  - destruct s1; [|cbn in Hn; lia].
    destruct s2; [reflexivity|]. symmetry in E. now apply scan_cons_not_nil in E.
  - destruct s1 as [|c1 r1].
    { destruct s2; [reflexivity|]. symmetry in E. now apply scan_cons_not_nil in E. }
    destruct s2 as [|c2 r2]; [now apply scan_cons_not_nil in E|].
    cbn [String.length] in Hn. cbn [scan] in E.
    destruct p.
    { injection E as -> E. f_equal. eapply IH; [|exact E]; lia. }
    destruct (match_alternatives alternatives (String c1 r1)) as [w1|] eqn:M1;
      destruct (match_alternatives alternatives (String c2 r2)) as [w2|] eqn:M2.
    + injection E as -> E. f_equal. eapply IH; [|exact E]; lia.
    + injection E as <- E. change (Criteria.glued "$") with false in E.
      destruct r2 as [|c3 r3]; [discriminate E|]. cbn [scan] in E.
      destruct (match_alternatives alternatives (String c3 r3)) as [w3|] eqn:M3.
      * injection E as -> _. apply match_head in M1 as [M1|M1]; discriminate M1.
      * injection E as -> E. apply IH in E; [|lia]. subst. congruence.
    + injection E as -> E. change (Criteria.glued "$") with false in E.
      destruct r1 as [|c3 r3]; [discriminate E|]. cbn [scan String.length] in E, Hn.
      destruct (match_alternatives alternatives (String c3 r3)) as [w3|] eqn:M3.
      * injection E as <- _. apply match_head in M2 as [M2|M2]; discriminate M2.
      * injection E as -> E. apply IH in E; [|lia]. subst. congruence.
    + injection E as -> E. f_equal. eapply IH; [|exact E]; lia.
Qed.

Lemma rewrite_injective (s1 s2 : string) :
  Criteria.rewrite s1 = Criteria.rewrite s2 -> s1 = s2.
Proof. apply (scan_injective (String.length s1)). lia. Qed.

(** *** Requests without a repeated name *)

Lemma well_formed_arr (l : list value) :
  Criteria.well_formed (VArr l) <-> Forall Criteria.well_formed l.
Proof.
  cbn [Criteria.well_formed]. induction l as [|x l IH]; cbn [fold_right].
  - split; constructor.
  - rewrite IH. split.
    + intros [Hx Hl]. now constructor.
    + intros H. inversion H; subst. now split.
Qed.

Lemma well_formed_obj (o : list (string * value)) :
  Criteria.well_formed (VObj o) <->
  NoDup (keys o) /\ Forall (fun kv => Criteria.well_formed (snd kv)) o.
Proof.
  cbn [Criteria.well_formed].
  assert (G : fold_right (fun kv acc => Criteria.well_formed (snd kv) /\ acc) True o <->
              Forall (fun kv => Criteria.well_formed (snd kv)) o).
  { induction o as [|x o IH]; cbn [fold_right].
    - split; constructor.
    - rewrite IH. split.
      + intros [Hx Hl]. now constructor.
      + intros H. inversion H; subst. now split. }
  now rewrite G.
Qed.

Lemma set_prop_fresh (o : object) (k : string) (v : value) :
  ~ In k (keys o) -> set_prop o k v = (o ++ [(k, v)])%list.
Proof.
  induction o as [|[k0 v0] o IH]; intros H; [reflexivity|].
  cbn in *. destruct (String.eqb_spec k0 k) as [->|Hne]; [elim H; now left|].
  rewrite IH; [reflexivity|]. intros Hin. apply H. now right.
Qed.

Lemma from_entries_nodup (l : list (string * value)) :
  NoDup (keys l) -> from_entries l = l.
Proof.
  unfold from_entries.
  assert (G : forall acc, NoDup (keys acc ++ keys l)%list ->
                          fold_left (fun o kv => set_prop o (fst kv) (snd kv)) l acc
                          = (acc ++ l)%list).
  { induction l as [|[k v] l IH]; intros acc H; cbn [fold_left fst snd].
    - now rewrite app_nil_r.
    - cbn [keys map fst] in H.
      assert (Hk : ~ In k (keys acc)).
      { apply NoDup_remove_2 in H. intros Hin. apply H. apply in_or_app. now left. }
      rewrite (set_prop_fresh acc k v Hk), IH, <- app_assoc; [reflexivity|].
      unfold keys in *. rewrite map_app, <- app_assoc. exact H. }
  intros H. now apply (G []).
Qed.

Lemma normalize_well_formed (v : value) :
  Criteria.well_formed v -> Criteria.normalize v = v.
Proof.
  induction v as [s|l IH|o IH] using value_ind; intros Hwf; [reflexivity| |].
  - apply well_formed_arr in Hwf. cbn [Criteria.normalize]. f_equal.
    induction l as [|x l IHl]; [reflexivity|].
    inversion IH; inversion Hwf; subst. cbn [map]. f_equal; auto.
  - apply well_formed_obj in Hwf as [Hnd Hwf]. cbn [Criteria.normalize]. f_equal.
    assert (E : map (fun kv => (fst kv, Criteria.normalize (snd kv))) o = o).
    { clear Hnd. induction o as [|[k x] o IHo]; [reflexivity|].
      inversion IH; inversion Hwf; subst. cbn [map fst snd] in *. f_equal; auto.
      f_equal. auto. }
    rewrite E. now apply from_entries_nodup.
Qed.

Lemma nodup_map_injective {A B : Type} (f : A -> B) (l : list A) :
  (forall x y, f x = f y -> x = y) -> NoDup l -> NoDup (map f l).
Proof.
  intros Hf. induction 1 as [|x l Hx Hl IH]; cbn; constructor; [|exact IH].
  intros Hin. apply in_map_iff in Hin as (y & E & Hy). apply Hf in E. now subst.
Qed.

Lemma rewrite_value_well_formed (v : value) :
  Criteria.well_formed v -> Criteria.well_formed (Criteria.rewrite_value v).
Proof.
  induction v as [s|l IH|o IH] using value_ind; intros Hwf; [exact I| |].
  - apply well_formed_arr in Hwf. cbn [Criteria.rewrite_value]. apply well_formed_arr.
    induction l as [|x l IHl]; [constructor|].
    inversion IH; inversion Hwf; subst. cbn [map]. constructor; auto.
  - apply well_formed_obj in Hwf as [Hnd Hwf]. cbn [Criteria.rewrite_value].
    apply well_formed_obj. split.
    + unfold keys in *. rewrite map_map. cbn [fst].
      rewrite <- (map_map fst Criteria.rewrite).
      apply nodup_map_injective; [exact rewrite_injective | exact Hnd].
    + clear Hnd. induction o as [|[k x] o IHo]; [constructor|].
      inversion IH; inversion Hwf; subst. cbn [map fst snd] in *. constructor; auto.
Qed.

Lemma delete_prop_well_formed (o : object) (k : string) :
  Criteria.well_formed (VObj o) -> Criteria.well_formed (VObj (delete_prop o k)).
Proof.
  rewrite !well_formed_obj. intros [Hnd Hwf].
  induction o as [|[k0 v0] o IH]; [split; constructor|].
  cbn [keys map fst] in Hnd. apply NoDup_cons_iff in Hnd as [Hk0 Hnd].
  inversion Hwf; subst. destruct (IH Hnd) as [IH1 IH2]; [assumption|].
  cbn [delete_prop]. destruct (k0 =? k)%string; [now split|].
  split; [|now constructor].
  cbn [keys map fst]. constructor; [|exact IH1].
  intros Hin. now apply keys_delete_prop in Hin as [Hin _].
Qed.

Lemma filter_set_well_formed (o : object) :
  Criteria.well_formed (VObj o) -> Criteria.well_formed (VObj (APIFeatures.filter_set o)).
Proof.
  intros H. unfold APIFeatures.filter_set, APIFeatures.excludedFields. cbn [fold_left].
  now repeat apply delete_prop_well_formed.
Qed.

(** *** The translation of the specification, where it applies *)

Lemma rewrite_value_unmentioned (v : value) :
  Criteria.mentions_value v = false -> Criteria.rewrite_value v = v.
Proof.
  induction v as [s|l IH|o IH] using value_ind; cbn [Criteria.mentions_value Criteria.rewrite_value];
    intros H.
  - now rewrite rewrite_unmentioned.
  - f_equal. induction l as [|x l IHl]; [reflexivity|].
    inversion IH; subst. cbn [existsb map] in *. apply orb_false_elim in H as [Hx Hl].
    f_equal; auto.
  - f_equal. induction o as [|[k x] o IHo]; [reflexivity|].
    inversion IH; subst. cbn [existsb map fst snd] in *.
    apply orb_false_elim in H as [Hkx Ho]. apply orb_false_elim in Hkx as [Hk Hx].
    f_equal; auto. f_equal; auto. now apply rewrite_unmentioned.
Qed.

Lemma rewrite_translate_key (k : string) :
  existsb (String.eqb k) Spec.comparison_keys || negb (Criteria.mentions_operator k) = true ->
  Criteria.rewrite k = Spec.translate_key k.
Proof.
  unfold Spec.translate_key.
  destruct (existsb (String.eqb k) Spec.comparison_keys) eqn:E; cbn [orb]; intros H.
  - apply existsb_exists in E as (w & Hw & E). apply String.eqb_eq in E. subst w.
    now apply rewrite_alternatives.
  - apply negb_true_iff in H. now apply rewrite_unmentioned.
Qed.

Lemma rewrite_translate_field (v : value) :
  Spec.plain_field v = true -> Criteria.rewrite_value v = Spec.translate_field v.
Proof.
  destruct v as [s|l|o]; cbn [Spec.plain_field Spec.translate_field]; intros H.
  - apply rewrite_value_unmentioned. now apply negb_true_iff in H.
  - apply rewrite_value_unmentioned. now apply negb_true_iff in H.
  - cbn [Criteria.rewrite_value]. f_equal.
    induction o as [|[k x] o IH]; [reflexivity|].
    cbn [forallb map fst snd] in *. apply andb_prop in H as [Hkx Ho].
    apply andb_prop in Hkx as [Hk Hx]. apply negb_true_iff in Hx.
    rewrite (rewrite_translate_key k Hk), (rewrite_value_unmentioned x Hx), (IH Ho).
    reflexivity.
Qed.

Lemma rewrite_translate (o : object) :
  Spec.plain_filter o = true -> Criteria.rewrite_value (VObj o) = Spec.translate o.
Proof.
  unfold Spec.translate. cbn [Criteria.rewrite_value]. intros H. f_equal.
  induction o as [|[k x] o IH]; [reflexivity|].
  cbn [Spec.plain_filter forallb map fst snd] in *. apply andb_prop in H as [Hkx Ho].
  apply andb_prop in Hkx as [Hk Hx]. apply negb_true_iff in Hk.
  rewrite (rewrite_unmentioned k Hk), (rewrite_translate_field x Hx), (IH Ho).
  reflexivity.
Qed.

(** C1, as the claim words it, fails at [?name=lt]: the replacement runs
    over the whole serialized request, and the field value ["lt"] becomes
    ["$lt"]. *)
Lemma filter_rewrites_a_field_value :
  exists this' h',
    APIFeatures.filter Example.builder Example.named_lt = Ok this' h' /\
    Query.find_args (APIFeatures.mongooseQuery this') =
      [VObj []; VObj [("name", VStr "$lt")]] /\
    Spec.translate (APIFeatures.filter_set (deref Example.named_lt 0%nat))
      = VObj [("name", VStr "lt")] /\
    Query.find_args (APIFeatures.mongooseQuery this') <>
      [VObj []; Spec.translate (APIFeatures.filter_set (deref Example.named_lt 0%nat))].
Proof.
  do 2 eexists. split; [vm_compute; reflexivity|].
  split; [reflexivity|]. split; [reflexivity|]. discriminate.
Qed.

(** On a request whose objects repeat no name, [filter] hands to [find]
    the filter set in which every string, key or value at any depth, is
    rewritten: each whole-word occurrence of [gte], [gt], [lte] or [lt]
    that no control character precedes gets a [$] in front, and a string
    without such an occurrence is unchanged. *)
Lemma filter_rewrites_every_string (h : heap) (this : APIFeatures.t) :
  let request := deref h (APIFeatures.expressQueryString this) in
  Criteria.well_formed (VObj request) ->
  APIFeatures.filter this h =
    Ok (APIFeatures.set_mongooseQuery this
          (Query.find (APIFeatures.mongooseQuery this)
                      (Criteria.rewrite_value (VObj (APIFeatures.filter_set request)))))
       (h ++ [APIFeatures.filter_set request])%list /\
  (forall w, In w alternatives -> Criteria.rewrite w = "$" ++ w) /\
  (forall s, Criteria.mentions_operator s = false -> Criteria.rewrite s = s).
Proof.
  intros request Hwf. split; [|split].
  - rewrite filter_total. fold request.
    rewrite normalize_well_formed; [reflexivity|].
    now apply rewrite_value_well_formed, filter_set_well_formed.
  - exact rewrite_alternatives.
  - exact rewrite_unmentioned.
Qed.

(** C1, amended.  On a request (objects repeat no name) in which the
    comparison keys of the nested mappings are the only whole-word
    mentions of [gte], [gt], [lte] and [lt], [filter] never fails and
    hands to [find] the translation of the specification: the filter set
    with exactly those keys turned into [$gte], [$gt], [$lte], [$lt], and
    every other field name and every value unchanged. *)
Theorem filter_translates_comparison_keys :
  forall (h : heap) (this : APIFeatures.t),
    let request := deref h (APIFeatures.expressQueryString this) in
    Criteria.well_formed (VObj request) ->
    Spec.plain_filter (APIFeatures.filter_set request) = true ->
    APIFeatures.filter this h =
      Ok (APIFeatures.set_mongooseQuery this
            (Query.find (APIFeatures.mongooseQuery this)
                        (Spec.translate (APIFeatures.filter_set request))))
         (h ++ [APIFeatures.filter_set request])%list.
Proof.
  intros h this request Hwf Hplain.
  destruct (filter_rewrites_every_string h this Hwf) as [Hrun _].
  fold request in Hrun. now rewrite Hrun, rewrite_translate.
Qed.

Lemma filter_translates_comparison_keys_witness :
  APIFeatures.outcome (APIFeatures.filter Example.builder Example.long_easy) =
  inl (Query.find (Query.Model_find (VObj []))
         (VObj [("difficulty", VStr "easy"); ("duration", VObj [("$gte", VStr "5")])])).
Proof.
  assert (Hwf : Criteria.well_formed
                  (VObj (deref Example.long_easy
                               (APIFeatures.expressQueryString Example.builder)))).
  { cbn. repeat split; repeat constructor; cbn; intuition discriminate. }
  rewrite (filter_translates_comparison_keys Example.long_easy Example.builder Hwf eq_refl).
  reflexivity.
Defined.

Lemma filter_criteria_have_no_reserved_key_witness :
  exists this' criteria,
    APIFeatures.filter Example.builder Example.all_controls
    = Ok this' (Example.all_controls ++ [[("difficulty", VStr "easy")]])%list /\
    Query.find_args (APIFeatures.mongooseQuery this') = [VObj []; VObj criteria] /\
    get_prop criteria "page" = None /\ get_prop criteria "sort" = None /\
    get_prop criteria "limit" = None /\ get_prop criteria "fields" = None.
Proof.
  destruct (filter_criteria_have_no_reserved_key Example.all_controls Example.builder)
    as (this' & criteria & Hrun & Hargs & Hk).
  exists this', criteria. split; [exact Hrun|]. split; [exact Hargs|].
  repeat split; apply Hk; cbn; auto.
Defined.


(* ================================================================= *)
(** ** Further properties of the query builder *)

(** *** Commas and spaces *)

Lemma join_cons (sep x : string) (l : list string) :
  l <> [] -> join sep (x :: l) = x ++ sep ++ join sep l.
Proof. destruct l; [contradiction | reflexivity]. Qed.

Lemma split_aux_not_nil (sep : ascii) (s : string) (cur : string -> string) :
  split_aux sep cur s <> [].
Proof.
  revert cur. induction s as [|c s IH]; intros cur; cbn; [discriminate|].
  destruct (Ascii.eqb c sep); [discriminate | apply IH].
Qed.

Lemma join_split_aux (sep : ascii) (s : string) :
  forall (cur : string -> string) (p : string),
    (forall x, cur x = p ++ x) ->
    join (String sep "") (split_aux "," cur s) = p ++ Pieces.commas_to sep s.
Proof.
  induction s as [|c s IH]; intros cur p Hcur.
  - cbn. apply Hcur.
  - cbn [split_aux Pieces.commas_to]. destruct (Ascii.eqb c ",").
    + rewrite join_cons by apply split_aux_not_nil.
      rewrite (IH (fun x => x) "") by reflexivity.
      rewrite Hcur, append_nil_r. reflexivity.
    + rewrite (IH _ (p ++ String c "")).
      * now rewrite append_assoc.
      * intros x. now rewrite Hcur, append_assoc.
Qed.

Lemma join_split (sep : ascii) (s : string) :
  join (String sep "") (split "," s) = Pieces.commas_to sep s.
Proof. apply (join_split_aux sep s (fun x => x) ""). reflexivity. Qed.

Lemma length_commas_to (sep : ascii) (s : string) :
  String.length (Pieces.commas_to sep s) = String.length s.
Proof. induction s as [|c s IH]; cbn; [reflexivity | now rewrite IH]. Qed.

(** X1.  For a [sort] (for a [fields]) parameter that is a non-empty
    string, [sort] ([limitFields]) hands to the backend the parameter
    with every comma replaced by a space and nothing else changed. *)
Theorem sort_and_limitFields_replace_commas_by_spaces :
  forall (h : heap) (this : APIFeatures.t) (s : string),
    s <> "" ->
    let q := deref h (APIFeatures.expressQueryString this) in
    (get_prop q "sort" = Some (VStr s) ->
     APIFeatures.sort this h =
     Ok (APIFeatures.set_mongooseQuery this
           (Query.sort (APIFeatures.mongooseQuery this) (Pieces.commas_to " " s))) h) /\
    (get_prop q "fields" = Some (VStr s) ->
     APIFeatures.limitFields this h =
     Ok (APIFeatures.set_mongooseQuery this
           (Query.select (APIFeatures.mongooseQuery this) (Pieces.commas_to " " s))) h) /\
    String.length (Pieces.commas_to " " s) = String.length s.
Proof.
  intros h this s Hs q. split; [|split].
  - intros E. rewrite sort_run. fold q. rewrite E.
    destruct s; [contradiction|]. now rewrite (join_split " ").
  - intros E. rewrite limitFields_run. fold q. rewrite E.
    destruct s; [contradiction|]. now rewrite (join_split " ").
  - apply length_commas_to.
Qed.

Lemma sort_and_limitFields_replace_commas_by_spaces_witness :
  APIFeatures.sort Example.builder Example.scenario =
  Ok (APIFeatures.set_mongooseQuery Example.builder
        (Query.sort (APIFeatures.mongooseQuery Example.builder) "-price ratingsAverage"))
     Example.scenario.
Proof.
  destruct (sort_and_limitFields_replace_commas_by_spaces
              Example.scenario Example.builder "-price,ratingsAverage") as [H _].
  - discriminate.
  - apply H. reflexivity.
Defined.

(** *** The ordering asked for *)

Lemma solid_spec (x : string) :
  Pieces.solid x = true ->
  x <> "" /\ forallb (fun c => negb (is_white_space c)) (list_ascii_of_string x) = true.
Proof.
  unfold Pieces.solid. intros H. apply andb_prop in H as [H1 H2]. split; [|exact H2].
  intros ->. discriminate H1.
Qed.

Lemma names_join_solid (l : list string) :
  l <> [] -> Forall (fun x => Pieces.solid x = true) l ->
  Query.names (join " " l) = l.
Proof.
  intros Hne Hall. unfold Query.names.
  induction Hall as [|x l Hx Hall IH]; [contradiction|].
  apply solid_spec in Hx as (Hx & Hws).
  assert (Hnb : negb (x =? "") = true)
    by (destruct (String.eqb_spec x ""); [contradiction | reflexivity]).
  destruct l as [|y l].
  - cbn [join]. rewrite pieces_no_space by exact Hws. cbn [List.filter]. now rewrite Hnb.
  - change (join " " (x :: y :: l)) with (x ++ String " " (join " " (y :: l))).
    rewrite pieces_space by exact Hws. cbn [List.filter]. rewrite Hnb.
    f_equal. apply IH. discriminate.
Qed.

Lemma assoc_set_fresh {A : Type} (m : list (string * A)) (k : string) (a : A) :
  ~ In k (map fst m) -> Query.assoc_set m k a = (m ++ [(k, a)])%list.
Proof.
  induction m as [|[k0 a0] m IH]; intros H; [reflexivity|].
  cbn in *. destruct (String.eqb_spec k0 k) as [->|Hne]; [elim H; now left|].
  rewrite IH; [reflexivity|]. intros Hin. apply H. now right.
Qed.

Lemma fold_assoc_set_fresh {A B : Type} (key : B -> string) (val : B -> A) (l : list B) :
  forall acc,
    NoDup (map fst acc ++ map key l)%list ->
    fold_left (fun m n => Query.assoc_set m (key n) (val n)) l acc =
    (acc ++ map (fun n => (key n, val n)) l)%list.
Proof.
  induction l as [|n l IH]; intros acc H; cbn [fold_left map].
  - now rewrite app_nil_r.
  - cbn [map] in H.
    assert (Hk : ~ In (key n) (map fst acc)).
    { apply NoDup_remove_2 in H. intros Hin. apply H. apply in_or_app. now left. }
    rewrite (assoc_set_fresh acc (key n) (val n) Hk), IH, <- app_assoc; [reflexivity|].
    rewrite map_app, <- app_assoc. exact H.
Qed.

(** X2.  On a fresh query, when the pieces of a non-empty [sort] string
    are names (not empty, no white space) of pairwise different fields,
    the ordering asked for has one key per piece, in the order of the
    pieces, descending exactly for the pieces with a leading minus. *)
Theorem sort_keeps_the_order_of_the_pieces :
  forall (h : heap) (base : value) (r : ref) (s : string),
    get_prop (deref h r) "sort" = Some (VStr s) ->
    s <> "" ->
    Forall (fun x => Pieces.solid x = true) (split "," s) ->
    NoDup (map (fun x => fst (Query.signed x)) (split "," s)) ->
    exists this',
      APIFeatures.sort (APIFeatures.new (Query.Model_find base) r) h = Ok this' h /\
      Query.sort_spec (APIFeatures.mongooseQuery this') =
      map (fun x => (fst (Query.signed x), Query.direction_of (snd (Query.signed x))))
          (split "," s).
Proof.
  intros h base r s E Hs Hsolid Hnd.
  eexists. split.
  - rewrite sort_run. cbn [APIFeatures.expressQueryString]. rewrite E.
    destruct s; [contradiction | reflexivity].
  - unfold Query.sort_spec.
    cbn [APIFeatures.set_mongooseQuery APIFeatures.mongooseQuery Query.sort
         Query.Model_find Query.sort_args app fold_left].
    unfold Query.merge_names.
    rewrite names_join_solid by (trivial; apply split_not_nil).
    rewrite (fold_assoc_set_fresh (fun x => fst (Query.signed x))
                                  (fun x => snd (Query.signed x))) by exact Hnd.
    cbn [app]. now rewrite map_map.
Qed.

Lemma sort_keeps_the_order_of_the_pieces_witness :
  exists this',
    APIFeatures.sort (APIFeatures.new (Query.Model_find (VObj [])) 0%nat) Example.scenario
    = Ok this' Example.scenario /\
    Query.sort_spec (APIFeatures.mongooseQuery this') =
    [("price", Query.Descending); ("ratingsAverage", Query.Ascending)].
Proof.
  apply (sort_keeps_the_order_of_the_pieces Example.scenario (VObj []) 0%nat
           "-price,ratingsAverage").
  - reflexivity.
  - discriminate.
  - repeat constructor.
  - repeat constructor; cbn; intuition discriminate.
Defined.

(** *** Numerals and numbers *)

Lemma Qred_integer (z : Z) : Qred (z # 1) = z # 1.
Proof.
  unfold Qred.
  pose proof (Z.ggcd_gcd z 1) as Hg.
  pose proof (Z.ggcd_correct_divisors z 1) as Hd.
  destruct (Z.ggcd z 1) as (g, (aa, bb)). cbn [fst snd] in *.
  rewrite Z.gcd_1_r in Hg. subst g. destruct Hd as [Ha Hb].
  rewrite Z.mul_1_l in Ha, Hb. now subst.
Qed.

Lemma mul_of_Z (a b : Z) : mul (of_Z a) (of_Z b) = of_Z (a * b).
Proof.
  unfold mul, of_Z, inject_Z, Qmult. cbn [Qnum Qden Pos.mul]. now rewrite Qred_integer.
Qed.

Lemma sub_of_Z (a b : Z) : sub (of_Z a) (of_Z b) = of_Z (a - b).
Proof.
  unfold sub, of_Z, inject_Z, Qminus, Qplus, Qopp. cbn [Qnum Qden Pos.mul].
  replace (a * 1 + - b * 1)%Z with (a - b)%Z by lia. now rewrite Qred_integer.
Qed.

Lemma or_number_of_Z (a d : Z) : a <> 0%Z -> or_number (of_Z a) (of_Z d) = of_Z a.
Proof.
  intros Ha. unfold or_number, truthy_number, of_Z, is_zero. cbn [inject_Z Qnum].
  destruct (Z.eqb_spec a 0); [contradiction | reflexivity].
Qed.

Lemma digit_char (d : N) :
  (d < 10)%N ->
  digit 10 (chr (48 + d)) = Some d /\ Numeral.is_digit (chr (48 + d)) = true.
Proof.
  intros H.
  assert (C : (d = 0 \/ d = 1 \/ d = 2 \/ d = 3 \/ d = 4 \/ d = 5 \/ d = 6 \/ d = 7 \/
               d = 8 \/ d = 9)%N) by lia.
  repeat (destruct C as [->|C]; [split; reflexivity|]). subst. split; reflexivity.
Qed.

Lemma digits_read (f : nat) :
  forall (n : N) (tl : string),
    (n < 2 ^ N.of_nat f)%N ->
    exists k, forall (a : N) (c : nat),
      read_digits 10 a c (Numeral.digits (S f) n tl) =
      read_digits 10 (a * 10 ^ N.of_nat (S k) + n) (c + S k) tl.
Proof.
  assert (Hsmall : forall n tl, (n < 10)%N ->
    forall a c, read_digits 10 a c (String (chr (48 + n mod 10)) tl) =
                read_digits 10 (a * 10 ^ N.of_nat 1 + n) (c + 1) tl).
  { intros n tl Hlt a c.
    assert (Hm : (n mod 10 = n)%N) by now apply N.mod_small.
    rewrite Hm. cbn [read_digits].
    destruct (digit_char n Hlt) as [-> _].
    change (N.of_nat 1) with 1%N. now rewrite N.pow_1_r, Nat.add_1_r. }
  induction f as [|f IH]; intros n tl Hn; cbn [Numeral.digits];
    destruct (N.ltb_spec n 10) as [Hlt|Hge].
  - exists 0%nat. now apply Hsmall.
  - exfalso. cbn in Hn. lia.
  - exists 0%nat. now apply Hsmall.
  - assert (Hq : (n / 10 < 2 ^ N.of_nat f)%N).
    { apply N.Div0.div_lt_upper_bound.
      rewrite Nat2N.inj_succ, N.pow_succ_r' in Hn. lia. }
    destruct (IH (n / 10)%N (String (chr (48 + n mod 10)) tl) Hq) as [k Hk].
    exists (S k). intros a c. rewrite Hk. cbn [read_digits].
    assert (Hm : (n mod 10 < 10)%N) by (apply N.mod_lt; lia).
    destruct (digit_char _ Hm) as [-> _].
    f_equal; [|lia].
    rewrite (Nat2N.inj_succ (S k)), N.pow_succ_r'.
    pose proof (N.div_mod n 10 ltac:(lia)) as Hdm.
    set (P := (10 ^ N.of_nat (S k))%N) in *. lia.
Qed.

Lemma digits_are_digits (f : nat) :
  forall (n : N) (tl : string),
    Forall (fun c => Numeral.is_digit c = true) (list_ascii_of_string tl) ->
    Forall (fun c => Numeral.is_digit c = true)
           (list_ascii_of_string (Numeral.digits f n tl)).
Proof.
  induction f as [|f IH]; intros n tl Htl; [exact Htl|].
  cbn [Numeral.digits].
  assert (Hm : (n mod 10 < 10)%N) by (apply N.mod_lt; lia).
  destruct (digit_char _ Hm) as [_ Hd].
  assert (Htl' : Forall (fun c => Numeral.is_digit c = true)
                        (list_ascii_of_string (String (chr (48 + n mod 10)) tl)))
    by (cbn; now constructor).
  destruct (n <? 10)%N; [exact Htl' | now apply IH].
Qed.

Lemma decimal_read (n : N) :
  exists k, read_digits 10 0 0 (Numeral.decimal n) = (n, S k, "").
Proof.
  unfold Numeral.decimal.
  destruct (digits_read (N.to_nat (N.size n)) n "") as [k Hk].
  { rewrite N2Nat.id. apply N.size_gt. }
  exists k. rewrite Hk. cbn [read_digits]. now rewrite N.mul_0_l, N.add_0_l.
Qed.

Lemma decimal_digits (n : N) :
  Forall (fun c => Numeral.is_digit c = true) (list_ascii_of_string (Numeral.decimal n)).
Proof. apply digits_are_digits. constructor. Qed.

Lemma digit_not_space (c : ascii) :
  Numeral.is_digit c = true ->
  is_white_space c = false /\ (code c =? 45)%N = false /\ (code c =? 43)%N = false /\
  Ascii.eqb c "I" = false /\
  ((code c =? 120) || (code c =? 88))%N = false /\
  ((code c =? 111) || (code c =? 79))%N = false /\
  ((code c =? 98) || (code c =? 66))%N = false.
Proof.
  each_char c; intros H; try discriminate H; repeat split; reflexivity.
Qed.

Lemma trim_right_digits (s : string) :
  Forall (fun c => Numeral.is_digit c = true) (list_ascii_of_string s) ->
  trim_right s = s.
Proof.
  induction s as [|c s IH]; intros H; [reflexivity|].
  cbn in H. inversion H as [|? ? Hc Hs]; subst.
  cbn [trim_right]. rewrite (IH Hs).
  destruct (digit_not_space c Hc) as (-> & _).
  now destruct s.
Qed.

Lemma StringToNumber_decimal (n : N) :
  StringToNumber (Numeral.decimal n) = of_Z (Z.of_N n).
Proof.
  destruct (decimal_read n) as [k Hk].
  pose proof (decimal_digits n) as Hd.
  destruct (Numeral.decimal n) as [|c r] eqn:E; [discriminate Hk|].
  cbn in Hd. inversion Hd as [|? ? Hc Hr]; subst.
  destruct (digit_not_space c Hc) as (Hws & H45 & H43 & HI & Hx & Ho & Hb).
  unfold StringToNumber.
  assert (Htl : trim_left (String c r) = String c r) by (cbn; now rewrite Hws).
  rewrite Htl, trim_right_digits by (cbn; now constructor).
  assert (Hnd : NonDecimalIntegerLiteral (String c r) = None).
  { unfold NonDecimalIntegerLiteral. destruct r as [|b r]; [reflexivity|].
    inversion Hr as [|? ? Hb' _]; subst.
    destruct (digit_not_space b Hb') as (_ & _ & _ & _ & Hx' & Ho' & Hb'').
    rewrite Hx', Ho', Hb''. now destruct (code c =? 48)%N. }
  rewrite Hnd. unfold read_sign. rewrite H45, H43.
  unfold StrUnsignedDecimalLiteral.
  assert (Hinf : (String c r =? "Infinity")%string = false) by (cbn; now rewrite HI).
  rewrite Hinf, Hk. cbn [Nat.add Nat.eqb].
  unfold scale. cbn [Z.of_nat Z.opp Z.leb Z.compare Z.pow Z.pow_pos Pos.iter].
  now rewrite Z.mul_1_r.
Qed.

Lemma StringToNumber_numeral (z : Z) :
  StringToNumber (Numeral.numeral z) = of_Z z.
Proof.
  unfold Numeral.numeral. destruct (Z.ltb_spec z 0) as [Hneg|Hpos].
  - pose proof (StringToNumber_decimal (Z.abs_N z)) as Hdec.
    pose proof (decimal_digits (Z.abs_N z)) as Hd.
    destruct (decimal_read (Z.abs_N z)) as [k Hk].
    destruct (Numeral.decimal (Z.abs_N z)) as [|c r] eqn:E; [discriminate Hk|].
    cbn in Hd. inversion Hd as [|? ? Hc Hr]; subst.
    destruct (digit_not_space c Hc) as (Hws & H45 & H43 & HI & _).
    unfold StringToNumber in *.
    assert (Htl : trim_left (String c r) = String c r) by (cbn; now rewrite Hws).
    rewrite Htl, trim_right_digits in Hdec by (cbn; now constructor).
    change (trim_left (String "-" (String c r))) with (String "-" (String c r)).
    assert (Htr : trim_right (String "-" (String c r)) = String "-" (String c r)).
    { change (trim_right (String "-" (String c r)))
        with (match trim_right (String c r) with
              | EmptyString => String "-" EmptyString
              | r' => String "-" r'
              end).
      now rewrite trim_right_digits by (cbn; now constructor). }
    rewrite Htr.
    change (NonDecimalIntegerLiteral (String "-" (String c r))) with (@None number).
    change (read_sign (String "-" (String c r))) with (true, String c r).
    cbv iota beta.
    unfold read_sign in Hdec. rewrite H45, H43 in Hdec.
    destruct (NonDecimalIntegerLiteral (String c r)) as [m|] eqn:Em.
    + exfalso. revert Em. clear -Hc Hr. unfold NonDecimalIntegerLiteral.
      destruct r as [|b r]; [discriminate|].
      cbn in Hr. inversion Hr as [|? ? Hb' _]; subst.
      destruct (digit_not_space b Hb') as (_ & _ & _ & _ & Hx' & Ho' & Hb'').
      rewrite Hx', Ho', Hb''. now destruct (code c =? 48)%N.
    + destruct (StrUnsignedDecimalLiteral (String c r)) as [m|]; [|discriminate Hdec].
      subst m. unfold negate, of_Z, inject_Z, Qopp. cbn [Qnum Qden].
      rewrite Qred_integer. do 2 f_equal. rewrite N2Z.inj_abs_N. lia.
  - rewrite StringToNumber_decimal. f_equal. lia.
Qed.




(** X3.  When [page] and [limit] are the decimal numerals of two
    integers other than zero (safe integers, with a safe product),
    [paginate] hands the backend exactly [skip = (page - 1) * limit] and
    that [limit]; negative values are passed on as they are. *)
Theorem paginate_reads_decimal_numerals :
  forall (h : heap) (this : APIFeatures.t) (p l : Z),
    p <> 0%Z -> l <> 0%Z ->
    Numeral.safe p -> Numeral.safe l -> Numeral.safe ((p - 1) * l) ->
    get_prop (deref h (APIFeatures.expressQueryString this)) "page"
      = Some (VStr (Numeral.numeral p)) ->
    get_prop (deref h (APIFeatures.expressQueryString this)) "limit"
      = Some (VStr (Numeral.numeral l)) ->
    APIFeatures.paginate this h =
    Ok (APIFeatures.set_mongooseQuery this
          (Query.limit (Query.skip (APIFeatures.mongooseQuery this) (of_Z ((p - 1) * l)))
                       (of_Z l))) h.
Proof.
  intros h this p l Hp Hl _ _ _ Ep El.
  rewrite paginate_run. cbv zeta. rewrite Ep, El.
  unfold APIFeatures.number_or, ToNumber. cbn [ToString].
  rewrite !StringToNumber_numeral, !mul_of_Z, !Z.mul_1_r.
  rewrite !or_number_of_Z by assumption.
  now rewrite sub_of_Z, mul_of_Z.
Qed.

Lemma paginate_reads_decimal_numerals_witness :
  APIFeatures.paginate Example.builder Example.second_page =
  Ok (APIFeatures.set_mongooseQuery Example.builder
        (Query.limit (Query.skip (APIFeatures.mongooseQuery Example.builder) (of_Z 10))
                     (of_Z 10))) Example.second_page.
Proof.
  apply (paginate_reads_decimal_numerals Example.second_page Example.builder 2 10);
    [discriminate | discriminate | unfold Numeral.safe; lia | unfold Numeral.safe; lia
     | unfold Numeral.safe; lia | reflexivity | reflexivity].
Defined.

(** *** The store is only ever extended *)

Lemma call_store (m : APIFeatures.method) (this : APIFeatures.t) (h : heap) :
  exists ext,
    heap_of (APIFeatures.call m this h) = (h ++ ext)%list /\
    (List.length ext <= Pieces.filters [m])%nat /\
    forall b h', APIFeatures.call m this h = Ok b h' ->
                 APIFeatures.expressQueryString b = APIFeatures.expressQueryString this.
Proof.
  destruct m; cbn [APIFeatures.call Pieces.filters].
  - exists [APIFeatures.filter_set (deref h (APIFeatures.expressQueryString this))].
    rewrite filter_total. cbn. repeat split; [lia|].
    intros b h' E. injection E as <- _. reflexivity.
  - exists []. rewrite sort_run, app_nil_r.
    destruct (get_prop _ _) as [[[|c s]|l|o]|]; cbn; repeat split; try lia;
      intros b h' E; try discriminate E; injection E as <- _; reflexivity.
  - exists []. rewrite limitFields_run, app_nil_r.
    destruct (get_prop _ _) as [[[|c s]|l|o]|]; cbn; repeat split; try lia;
      intros b h' E; try discriminate E; injection E as <- _; reflexivity.
  - exists []. rewrite paginate_run, app_nil_r. cbn. repeat split; [lia|].
    intros b h' E. injection E as <- _. reflexivity.
Qed.

(** X4.  Whatever methods are called and in whatever order, the builder
    never writes to an object that was in the store, the request
    included: the store only grows, by at most one object (the copy of
    the request) per call of [filter]. *)
Theorem chain_only_extends_the_store :
  forall (ms : list APIFeatures.method) (this : APIFeatures.t) (h : heap),
    exists ext,
      heap_of (APIFeatures.chain ms this h) = (h ++ ext)%list /\
      (List.length ext <= Pieces.filters ms)%nat /\
      forall r, (r < List.length h)%nat ->
                deref (heap_of (APIFeatures.chain ms this h)) r = deref h r.
Proof.
  assert (G : forall ms this h,
             exists ext, heap_of (APIFeatures.chain ms this h) = (h ++ ext)%list /\
                         (List.length ext <= Pieces.filters ms)%nat).
  { induction ms as [|m ms IH]; intros this h.
    - exists []. cbn. rewrite app_nil_r. split; [reflexivity | lia].
    - cbn [APIFeatures.chain]. unfold bind.
      destruct (call_store m this h) as (ext1 & H1 & L1 & _).
      destruct (APIFeatures.call m this h) as [b h1|e h1]; cbn [heap_of] in H1; subst h1.
      + destruct (IH b (h ++ ext1)%list) as (ext2 & H2 & L2).
        exists (ext1 ++ ext2)%list. rewrite H2, app_assoc, length_app.
        split; [reflexivity|]. cbn [Pieces.filters] in *. destruct m; lia.
      + exists ext1. split; [reflexivity|]. cbn [Pieces.filters] in *. destruct m; lia. }
  intros ms this h. destruct (G ms this h) as (ext & H & L).
  exists ext. split; [exact H|]. split; [exact L|].
  intros r Hr. rewrite H. unfold deref. now rewrite app_nth1.
Qed.

Lemma chain_only_extends_the_store_witness :
  deref (heap_of (APIFeatures.chain
                    [APIFeatures.Filter; APIFeatures.Sort; APIFeatures.LimitFields;
                     APIFeatures.Paginate] Example.builder Example.all_controls)) 0%nat
  = deref Example.all_controls 0%nat.
Proof.
  destruct (chain_only_extends_the_store
              [APIFeatures.Filter; APIFeatures.Sort; APIFeatures.LimitFields;
               APIFeatures.Paginate] Example.builder Example.all_controls)
    as (ext & _ & _ & H).
  apply H. cbn. lia.
Defined.

(** *** What [filter] hands to [find], in full *)

Lemma keys_rewrite_value (o : object) :
  map fst (map (fun kv => (Criteria.rewrite (fst kv), Criteria.rewrite_value (snd kv))) o)
  = map Criteria.rewrite (keys o).
Proof. unfold keys. now rewrite !map_map. Qed.

(** X5.  On a request whose objects repeat no name, [filter] never
    fails and hands to [find] the filter set with every key and every
    string value, at any depth, rewritten by the replacement; the fields
    stay in the same order and pairwise different.  A filter set none of
    whose strings mentions an operator word arrives unchanged, whatever
    characters (quotes, backslashes, control characters) its strings
    contain. *)
Theorem filter_rewrites_keys_and_values_at_any_depth :
  forall (h : heap) (this : APIFeatures.t),
    let fs := APIFeatures.filter_set (deref h (APIFeatures.expressQueryString this)) in
    Criteria.well_formed (VObj (deref h (APIFeatures.expressQueryString this))) ->
    exists criteria,
      APIFeatures.filter this h =
        Ok (APIFeatures.set_mongooseQuery this
              (Query.find (APIFeatures.mongooseQuery this) (VObj criteria)))
           (h ++ [fs])%list /\
      criteria = map (fun kv => (Criteria.rewrite (fst kv), Criteria.rewrite_value (snd kv))) fs /\
      keys criteria = map Criteria.rewrite (keys fs) /\
      NoDup (keys criteria) /\
      (Criteria.mentions_value (VObj fs) = false -> criteria = fs).
Proof.
  intros h this fs Hwf.
  exists (map (fun kv => (Criteria.rewrite (fst kv), Criteria.rewrite_value (snd kv))) fs).
  assert (Hfs : Criteria.well_formed (VObj fs)) by now apply filter_set_well_formed.
  assert (Hrw := rewrite_value_well_formed _ Hfs).
  split; [|split; [reflexivity|split; [apply keys_rewrite_value|split]]].
  - rewrite filter_total. fold fs. now rewrite (normalize_well_formed _ Hrw).
  - apply well_formed_obj in Hrw as [Hnd _]. exact Hnd.
  - intros Hm. apply rewrite_value_unmentioned in Hm.
    cbn [Criteria.rewrite_value] in Hm. now injection Hm.
Qed.

Lemma filter_rewrites_keys_and_values_at_any_depth_witness :
  APIFeatures.outcome (APIFeatures.filter Example.builder Example.mixed) =
  inl (Query.find (Query.Model_find (VObj []))
                  (VObj [("duration", VObj [("$gte", VStr "5")])])).
Proof.
  assert (Hwf : Criteria.well_formed
                  (VObj (deref Example.mixed (APIFeatures.expressQueryString Example.builder)))).
  { cbn. repeat split; repeat constructor; cbn; intuition discriminate. }
  destruct (filter_rewrites_keys_and_values_at_any_depth Example.mixed Example.builder Hwf)
    as (criteria & Hrun & -> & _).
  rewrite Hrun. reflexivity.
Defined.

(** *** The translation loses nothing *)

Lemma rewrite_value_injective (v1 : value) :
  forall v2, Criteria.rewrite_value v1 = Criteria.rewrite_value v2 -> v1 = v2.
Proof.
  induction v1 as [s|l IH|o IH] using value_ind; intros [s2|l2|o2] E;
    cbn [Criteria.rewrite_value] in E; try discriminate E; injection E as E.
  - f_equal. now apply rewrite_injective.
  - f_equal. revert l2 E. induction IH as [|x l Hx Hl IHl]; intros [|y l2] E;
      cbn [map] in E; try discriminate E; [reflexivity|].
    injection E as Ex El. f_equal; auto.
  - f_equal. revert o2 E. induction IH as [|[k x] o Hx Ho IHo]; intros [|[k2 y] o2] E;
      cbn [map fst snd] in E; try discriminate E; [reflexivity|].
    injection E as Ek Ex Eo. cbn [snd] in Hx.
    apply rewrite_injective in Ek. apply Hx in Ex. subst. f_equal. auto.
Qed.

(** X6.  Two requests (objects repeat no name) for which [filter] hands
    the same criteria to [find] have the same filter set: the rewriting
    never makes two different filters coincide. *)
Theorem filter_keeps_different_filters_apart :
  forall (h1 h2 : heap) (this1 this2 : APIFeatures.t) (b1 b2 : APIFeatures.t) (h1' h2' : heap),
    Criteria.well_formed (VObj (deref h1 (APIFeatures.expressQueryString this1))) ->
    Criteria.well_formed (VObj (deref h2 (APIFeatures.expressQueryString this2))) ->
    APIFeatures.mongooseQuery this1 = APIFeatures.mongooseQuery this2 ->
    APIFeatures.filter this1 h1 = Ok b1 h1' ->
    APIFeatures.filter this2 h2 = Ok b2 h2' ->
    APIFeatures.mongooseQuery b1 = APIFeatures.mongooseQuery b2 ->
    APIFeatures.filter_set (deref h1 (APIFeatures.expressQueryString this1)) =
    APIFeatures.filter_set (deref h2 (APIFeatures.expressQueryString this2)).
Proof.
  intros h1 h2 this1 this2 b1 b2 h1' h2' W1 W2 Eq R1 R2 Eb.
  destruct (filter_rewrites_every_string h1 this1 W1) as [F1 _].
  destruct (filter_rewrites_every_string h2 this2 W2) as [F2 _].
  rewrite F1 in R1. rewrite F2 in R2.
  injection R1 as <- _. injection R2 as <- _.
  cbn [APIFeatures.set_mongooseQuery APIFeatures.mongooseQuery] in Eb.
  rewrite Eq in Eb. unfold Query.find in Eb. injection Eb as Eb.
  apply app_inv_head in Eb. injection Eb as Eb.
  assert (E : Criteria.rewrite_value
                (VObj (APIFeatures.filter_set (deref h1 (APIFeatures.expressQueryString this1))))
              = Criteria.rewrite_value
                (VObj (APIFeatures.filter_set (deref h2 (APIFeatures.expressQueryString this2)))))
    by (cbn [Criteria.rewrite_value]; now rewrite Eb).
  apply rewrite_value_injective in E. now injection E.
Qed.

Lemma filter_keeps_different_filters_apart_witness :
  APIFeatures.filter_set (deref Example.mixed 0%nat) =
  APIFeatures.filter_set (deref Sample.long_tours 0%nat).
Proof.
  assert (W1 : Criteria.well_formed
                 (VObj (deref Example.mixed (APIFeatures.expressQueryString Example.builder)))).
  { cbn. repeat split; repeat constructor; cbn; intuition discriminate. }
  assert (W2 : Criteria.well_formed
                 (VObj (deref Sample.long_tours
                              (APIFeatures.expressQueryString Example.builder)))).
  { cbn. repeat split; repeat constructor; cbn; intuition discriminate. }
  apply (filter_keeps_different_filters_apart
           Example.mixed Sample.long_tours Example.builder Example.builder
           (APIFeatures.set_mongooseQuery Example.builder
              (Query.find (Query.Model_find (VObj []))
                          (VObj [("duration", VObj [("$gte", VStr "5")])])))
           (APIFeatures.set_mongooseQuery Example.builder
              (Query.find (Query.Model_find (VObj []))
                          (VObj [("duration", VObj [("$gte", VStr "5")])])))
           (Example.mixed ++ [[("duration", VObj [("gte", VStr "5")])]])%list
           (Sample.long_tours ++ [[("duration", VObj [("gte", VStr "5")])]])%list
           W1 W2 eq_refl); reflexivity.
Defined.

(** *** When the chain of [getAll] throws *)




(** *** The route [/top-5-cheap] *)











(* ================================================================= *)
(** ** Properties of [AppError] *)

Lemma digits_head (f : nat) :
  forall (n : N) (tl : string),
    (n < 2 ^ N.of_nat f)%N ->
    exists (d : N) (rest : string) (k : N),
      Numeral.digits (S f) n tl = String (chr (48 + d)) rest /\
      (d < 10)%N /\ (d * 10 ^ k <= n)%N /\ (n < (d + 1) * 10 ^ k)%N /\
      ((0 < n)%N -> (0 < d)%N).
Proof.
  assert (Hsmall : forall n tl, (n < 10)%N ->
    exists (d : N) (rest : string) (k : N),
      String (chr (48 + n mod 10)) tl = String (chr (48 + d)) rest /\
      (d < 10)%N /\ (d * 10 ^ k <= n)%N /\ (n < (d + 1) * 10 ^ k)%N /\
      ((0 < n)%N -> (0 < d)%N)).
  { intros n tl Hlt. exists n, tl, 0%N.
    rewrite N.mod_small by exact Hlt. rewrite N.pow_0_r. repeat split; lia. }
  induction f as [|f IH]; intros n tl Hn; cbn [Numeral.digits];
    destruct (N.ltb_spec n 10) as [Hlt|Hge].
  - now apply Hsmall.
  - exfalso. cbn in Hn. lia.
  - now apply Hsmall.
  - assert (Hq : (n / 10 < 2 ^ N.of_nat f)%N).
    { apply N.Div0.div_lt_upper_bound.
      rewrite Nat2N.inj_succ, N.pow_succ_r' in Hn. lia. }
    destruct (IH (n / 10)%N (String (chr (48 + n mod 10)) tl) Hq)
      as (d & rest & k & E & Hd & Hlo & Hhi & Hpos).
    exists d, rest, (N.succ k). split; [exact E|]. split; [exact Hd|].
    rewrite N.pow_succ_r'.
    pose proof (N.div_mod n 10 ltac:(lia)) as Hdm.
    assert (Hm : (n mod 10 < 10)%N) by (apply N.mod_lt; lia).
    assert (Hq1 : (0 < n / 10)%N).
    { apply N.div_str_pos. lia. }
    specialize (Hpos Hq1).
    set (P := (10 ^ k)%N) in *. set (q := (n / 10)%N) in *. set (m := (n mod 10)%N) in *.
    split; [nia|]. split; [nia|]. intros _. exact Hpos.
Qed.

Lemma decimal_head (n : N) :
  exists (d : N) (rest : string) (k : N),
    Numeral.decimal n = String (chr (48 + d)) rest /\
    (d < 10)%N /\ (d * 10 ^ k <= n)%N /\ (n < (d + 1) * 10 ^ k)%N /\
    ((0 < n)%N -> (0 < d)%N).
Proof.
  apply digits_head. rewrite N2Nat.id. apply N.size_gt.
Qed.

Lemma starts_with_four (d : N) (rest : string) :
  (d < 10)%N ->
  AppError.startsWith (String (chr (48 + d)) rest) "4" = (d =? 4)%N.
Proof.
  intros H.
  assert (C : (d = 0 \/ d = 1 \/ d = 2 \/ d = 3 \/ d = 4 \/ d = 5 \/ d = 6 \/ d = 7 \/
               d = 8 \/ d = 9)%N) by lia.
  repeat (destruct C as [->|C]; [reflexivity|]). subst. reflexivity.
Qed.

Lemma pow10_step (k1 k2 : N) : (k1 < k2)%N -> (10 * 10 ^ k1 <= 10 ^ k2)%N.
Proof.
  intros H. rewrite <- N.pow_succ_r'. apply N.pow_le_mono_r; lia.
Qed.

(** A number has one leading digit. *)
Lemma leading_digit_unique (n d k k' : N) :
  (d < 10)%N -> (d * 10 ^ k <= n)%N -> (n < (d + 1) * 10 ^ k)%N ->
  ((0 < n)%N -> (0 < d)%N) ->
  (4 * 10 ^ k' <= n)%N -> (n < 5 * 10 ^ k')%N -> d = 4%N.
Proof.
  intros Hd Hlo Hhi Hpos H4 H5.
  assert (Hp : (0 < 10 ^ k)%N) by (apply N.neq_0_lt_0, N.pow_nonzero; lia).
  assert (Hp' : (0 < 10 ^ k')%N) by (apply N.neq_0_lt_0, N.pow_nonzero; lia).
  assert (Hd0 : (0 < d)%N) by (apply Hpos; lia).
  destruct (N.lt_trichotomy k k') as [Hlt|[->|Hgt]].
  - pose proof (pow10_step k k' Hlt). nia.
  - nia.
  - pose proof (pow10_step k' k Hgt). nia.
Qed.

(** X9.  An [AppError] (its status code a safe natural number) is
    always operational and keeps its status code; its status is ["fail"]
    exactly when the decimal numeral of the code begins with 4, and
    ["error"] otherwise.  For a three-digit code that is: ["fail"] for
    400 to 499, ["error"] for every other one. *)
Theorem AppError_status_is_fail_exactly_for_leading_4 :
  forall (message : string) (n : N),
    Numeral.safe (Z.of_N n) ->
    let e := AppError.new message n in
    AppError.isOperational e = true /\
    AppError.statusCode e = n /\
    AppError.message e = message /\
    (AppError.status e = "fail" \/ AppError.status e = "error") /\
    (AppError.status e = "fail" <-> exists k, (4 * 10 ^ k <= n < 5 * 10 ^ k)%N) /\
    ((100 <= n < 1000)%N -> (AppError.status e = "fail" <-> (400 <= n < 500)%N)).
Proof.
  intros message n _ e. subst e. cbn [AppError.new AppError.isOperational AppError.statusCode
                                   AppError.message AppError.status].
  destruct (decimal_head n) as (d & rest & k & E & Hd & Hlo & Hhi & Hpos).
  rewrite E, (starts_with_four d rest Hd).
  assert (Hiff : (if (d =? 4)%N then "fail" else "error") = "fail" <->
                 exists k, (4 * 10 ^ k <= n < 5 * 10 ^ k)%N).
  { split.
    - destruct (N.eqb_spec d 4) as [->|Hne]; [|discriminate].
      intros _. exists k. split; assumption.
    - intros (k' & H4 & H5).
      rewrite (leading_digit_unique n d k k' Hd Hlo Hhi Hpos H4 H5). reflexivity. }
  split; [reflexivity|]. split; [reflexivity|]. split; [reflexivity|].
  split; [destruct (d =? 4)%N; auto|]. split; [exact Hiff|].
  intros [H1 H2]. rewrite Hiff. split.
  - intros (k' & H4 & H5).
    destruct (N.lt_trichotomy k' 2) as [Hlt|[->|Hgt]].
    + assert (k' = 0 \/ k' = 1)%N as [-> | ->] by lia.
      * rewrite N.pow_0_r in H4, H5. lia.
      * rewrite N.pow_1_r in H4, H5. lia.
    + change (10 ^ 2)%N with 100%N in H4, H5. lia.
    + pose proof (pow10_step 2 k' Hgt) as Hstep.
      change (10 ^ 2)%N with 100%N in Hstep. lia.
  - intros [H4 H5]. exists 2%N. change (10 ^ 2)%N with 100%N. lia.
Qed.

Lemma AppError_status_is_fail_exactly_for_leading_4_witness :
  AppError.status (AppError.new "No document found with that ID" 404) = "fail".
Proof.
  assert (Hsafe : Numeral.safe (Z.of_N 404)) by (unfold Numeral.safe; lia).
  destruct (AppError_status_is_fail_exactly_for_leading_4
              "No document found with that ID" 404 Hsafe) as (_ & _ & _ & _ & _ & H).
  apply H; lia.
Defined.

(* ================================================================= *)
(** ** Properties of [filterObj] and [updateMe] *)

Lemma lookup_assign_same {A : Type} (o : list (string * A)) (k : string) (v : A) :
  UserController.lookup (UserController.assign o k v) k = Some v.
Proof.
  unfold UserController.assign. induction o as [|[k0 v0] o IH]; cbn.
  - now rewrite String.eqb_refl.
  - destruct (String.eqb_spec k0 k) as [->|Hne]; cbn.
    + now rewrite String.eqb_refl.
    + destruct (String.eqb_spec k0 k); [contradiction | exact IH].
Qed.

Lemma lookup_assign_other {A : Type} (o : list (string * A)) (k k' : string) (v : A) :
  k <> k' ->
  UserController.lookup (UserController.assign o k v) k' = UserController.lookup o k'.
Proof.
  unfold UserController.assign. intros Hne. induction o as [|[k0 v0] o IH]; cbn.
  - destruct (String.eqb_spec k k'); [contradiction | reflexivity].
  - destruct (String.eqb_spec k0 k) as [->|Hk]; cbn.
    + destruct (String.eqb_spec k k'); [contradiction | reflexivity].
    + now rewrite IH.
Qed.

Lemma lookup_absent {A : Type} (o : list (string * A)) (k : string) :
  existsb (String.eqb k) (map fst o) = false -> UserController.lookup o k = None.
Proof.
  induction o as [|[k0 v0] o IH]; cbn; [reflexivity|].
  intros H. apply orb_false_elim in H as [H0 H].
  rewrite String.eqb_sym in H0. rewrite H0. now apply IH.
Qed.

Lemma lookup_filterObj {A : Type} (obj : list (string * A)) (allowedFields : list string)
      (k : string) :
  UserController.lookup (UserController.filterObj obj allowedFields) k =
  if existsb (String.eqb k) allowedFields then UserController.lookup obj k else None.
Proof.
  unfold UserController.filterObj.
  assert (G : forall ks acc,
             UserController.lookup
               (fold_left
                  (fun newObj el =>
                     if existsb (String.eqb el) allowedFields
                     then match UserController.lookup obj el with
                          | Some v => UserController.assign newObj el v
                          | None => newObj
                          end
                     else newObj) ks acc) k =
             if existsb (String.eqb k) allowedFields && existsb (String.eqb k) ks
             then match UserController.lookup obj k with
                  | Some v => Some v
                  | None => UserController.lookup acc k
                  end
             else UserController.lookup acc k).
  { induction ks as [|el ks IH]; intros acc; cbn [fold_left existsb].
    - now rewrite andb_false_r.
    - rewrite IH. clear IH.
      destruct (String.eqb_spec k el) as [<-|Hne]; cbn [orb].
      + destruct (existsb (String.eqb k) allowedFields); cbn [andb]; [|reflexivity].
        destruct (UserController.lookup obj k) as [v|] eqn:E.
        * destruct (existsb (String.eqb k) ks); [reflexivity | apply lookup_assign_same].
        * now destruct (existsb (String.eqb k) ks).
      + assert (Hacc : UserController.lookup
                         (if existsb (String.eqb el) allowedFields
                          then match UserController.lookup obj el with
                               | Some v => UserController.assign acc el v
                               | None => acc
                               end
                          else acc) k = UserController.lookup acc k).
        { destruct (existsb (String.eqb el) allowedFields); [|reflexivity].
          destruct (UserController.lookup obj el); [|reflexivity].
          apply lookup_assign_other. congruence. }
        now rewrite Hacc. }
  rewrite G. cbn [UserController.lookup].
  destruct (existsb (String.eqb k) allowedFields); cbn [andb]; [|reflexivity].
  destruct (existsb (String.eqb k) (map fst obj)) eqn:E.
  - now destruct (UserController.lookup obj k).
  - now rewrite (lookup_absent obj k E).
Qed.

Lemma lookup_present {A : Type} (o : list (string * A)) (k : string) :
  In k (map fst o) -> UserController.lookup o k <> None.
Proof.
  induction o as [|[k0 v0] o IH]; cbn; [contradiction|].
  intros [->|H]; [now rewrite String.eqb_refl|].
  destruct (k0 =? k)%string; [discriminate | now apply IH].
Qed.

Lemma keys_filterObj {A : Type} (obj : list (string * A)) (allowedFields : list string) :
  NoDup (map fst obj) ->
  map fst (UserController.filterObj obj allowedFields) =
  List.filter (fun el => existsb (String.eqb el) allowedFields) (map fst obj).
Proof.
  unfold UserController.filterObj. intros Hnd.
  assert (G : forall ks acc,
             NoDup (map fst acc ++ ks)%list ->
             (forall el, In el ks -> UserController.lookup obj el <> None) ->
             map fst (fold_left
                        (fun newObj el =>
                           if existsb (String.eqb el) allowedFields
                           then match UserController.lookup obj el with
                                | Some v => UserController.assign newObj el v
                                | None => newObj
                                end
                           else newObj) ks acc) =
             (map fst acc ++ List.filter (fun el => existsb (String.eqb el) allowedFields) ks)%list).
  { induction ks as [|el ks IH]; intros acc Hn Hin; cbn [fold_left List.filter].
    - now rewrite app_nil_r.
    - assert (Hel : ~ In el (map fst acc)).
      { apply NoDup_remove_2 in Hn. intros H. apply Hn, in_or_app. now left. }
      destruct (existsb (String.eqb el) allowedFields).
      + destruct (UserController.lookup obj el) as [v|] eqn:E;
          [|exfalso; now apply (Hin el (or_introl eq_refl))].
        unfold UserController.assign. rewrite (assoc_set_fresh acc el v Hel).
        rewrite IH.
        * rewrite map_app, <- app_assoc. reflexivity.
        * rewrite map_app, <- app_assoc. exact Hn.
        * intros el' H'. apply Hin. now right.
      + apply IH.
        * apply NoDup_remove_1 in Hn. exact Hn.
        * intros el' H'. apply Hin. now right. }
  rewrite G; [reflexivity | exact Hnd | apply lookup_present].
Qed.

(** X10.  [filterObj] keeps exactly the allowed fields of the object
    (the allowed names being ordinary property names, not [__proto__]):
    a field of the result is a field of the object with the same value
    and an allowed name, every other name is absent; on an object that
    repeats no name the kept fields come in the order of the object. *)
Theorem filterObj_keeps_exactly_the_allowed_fields :
  forall (A : Type) (obj : list (string * A)) (allowedFields : list string),
    ~ In "__proto__" allowedFields ->
    (forall k,
        UserController.lookup (UserController.filterObj obj allowedFields) k =
        if existsb (String.eqb k) allowedFields then UserController.lookup obj k else None) /\
    (NoDup (map fst obj) ->
     map fst (UserController.filterObj obj allowedFields) =
     List.filter (fun el => existsb (String.eqb el) allowedFields) (map fst obj)).
Proof.
  intros A obj allowedFields _. split.
  - intros k. apply lookup_filterObj.
  - apply keys_filterObj.
Qed.

Lemma filterObj_keeps_exactly_the_allowed_fields_witness :
  map fst (UserController.filterObj Sample.promotion ["name"; "email"]) = ["name"].
Proof.
  assert (Hnames : ~ In "__proto__" ["name"; "email"]) by (cbn; intuition discriminate).
  destruct (filterObj_keeps_exactly_the_allowed_fields _ Sample.promotion ["name"; "email"]
              Hnames) as [_ H].
  rewrite H; [reflexivity|].
  cbn. repeat constructor; cbn; intuition discriminate.
Defined.

(** X11.  [updateMe] rejects a body with a truthy [password] or
    [passwordConfirm] by a 400 error and otherwise updates nothing but
    [name], [email] and [photo]: [name] and [email] are those of the
    body, [photo] is the uploaded file and never a value of the body, and
    [role], [password] and every other field of the body are left out. *)
Theorem updateMe_updates_only_name_email_and_photo :
  forall (body : list (string * UserController.json)) (file : option string),
    let guarded :=
      UserController.truthy (UserController.lookup body "password")
      || UserController.truthy (UserController.lookup body "passwordConfirm") in
    (guarded = true ->
     exists e, UserController.updateMe body file = inl e /\
               AppError.statusCode e = 400%N /\ AppError.status e = "fail" /\
               AppError.isOperational e = true) /\
    (guarded = false ->
     exists update,
       UserController.updateMe body file = inr update /\
       UserController.lookup update "name" = UserController.lookup body "name" /\
       UserController.lookup update "email" = UserController.lookup body "email" /\
       UserController.lookup update "photo" = option_map UserController.JStr file /\
       forall k, k <> "name" -> k <> "email" -> k <> "photo" ->
                 UserController.lookup update k = None).
Proof.
  intros body file guarded. subst guarded. unfold UserController.updateMe. split; intros H.
  - rewrite H. eexists. split; [reflexivity|]. repeat split; reflexivity.
  - rewrite H. eexists. split; [reflexivity|].
    assert (Hother : forall k, k <> "name" -> k <> "email" ->
              UserController.lookup (UserController.filterObj body ["name"; "email"]) k = None).
    { intros k H1 H2. rewrite lookup_filterObj. cbn [existsb].
      destruct (String.eqb_spec k "name"); [contradiction|].
      destruct (String.eqb_spec k "email"); [contradiction | reflexivity]. }
    destruct file as [filename|]; cbn [option_map].
    + rewrite !lookup_assign_other by discriminate.
      rewrite !lookup_filterObj. cbn [existsb String.eqb Ascii.eqb Bool.eqb orb].
      repeat split; trivial.
      * apply lookup_assign_same.
      * intros k H1 H2 H3. rewrite lookup_assign_other by congruence. now apply Hother.
    + rewrite !lookup_filterObj. cbn [existsb String.eqb Ascii.eqb Bool.eqb orb].
      repeat split; trivial.
      intros k H1 H2 _. now apply Hother.
Qed.

Lemma updateMe_updates_only_name_email_and_photo_witness :
  exists update,
    UserController.updateMe Sample.promotion None = inr update /\
    UserController.lookup update "name" = Some (UserController.JStr "Ann") /\
    UserController.lookup update "role" = None /\
    UserController.lookup update "photo" = None.
Proof.
  destruct (updateMe_updates_only_name_email_and_photo Sample.promotion None) as [_ H].
  destruct (H eq_refl) as (update & Hrun & Hname & _ & Hphoto & Hother).
  exists update. split; [exact Hrun|]. split; [exact Hname|]. split; [|exact Hphoto].
  apply Hother; discriminate.
Defined.

(* ================================================================= *)
(** ** The guard of the geospatial handlers *)

Lemma comma_free_cons (c : ascii) (s : string) :
  Pieces.comma_free (String c s) <-> c <> ","%char /\ Pieces.comma_free s.
Proof.
  unfold Pieces.comma_free. cbn. intuition congruence.
Qed.

Lemma split_aux_free (cur : string -> string) (s : string) :
  Pieces.comma_free s -> split_aux "," cur s = [cur s].
Proof.
  revert cur. induction s as [|c s IH]; intros cur H; cbn; [reflexivity|].
  apply comma_free_cons in H as [Hc Hs].
  destruct (Ascii.eqb_spec c ","); [contradiction|].
  now rewrite IH.
Qed.

Lemma split_aux_prefix (cur : string -> string) (a r : string) :
  Pieces.comma_free a ->
  split_aux "," cur (a ++ String "," r) = cur a :: split "," r.
Proof.
  revert cur. induction a as [|c a IH]; intros cur H; cbn; [reflexivity|].
  apply comma_free_cons in H as [Hc Ha].
  destruct (Ascii.eqb_spec c ","); [contradiction|].
  now rewrite IH.
Qed.

Lemma split_first (cur : string -> string) (s : string) :
  exists a, Pieces.comma_free a /\
            ((s = a /\ split_aux "," cur s = [cur a]) \/
             (exists r, s = a ++ String "," r /\
                        split_aux "," cur s = cur a :: split "," r)).
Proof.
  revert cur. induction s as [|c s IH]; intros cur.
  - exists "". split; [intros []|]. now left.
  - destruct (Ascii.eqb_spec c ",") as [->|Hc].
    + exists "". split; [intros []|]. right. exists s. now split.
    + destruct (IH (fun x => cur (String c x))) as (a & Ha & [[-> Hs] | (r & -> & Hs)]).
      * exists (String c a). split; [now apply comma_free_cons|]. left. split; [reflexivity|].
        cbn. destruct (Ascii.eqb_spec c ","); [contradiction | exact Hs].
      * exists (String c a). split; [now apply comma_free_cons|]. right. exists r.
        split; [reflexivity|].
        cbn. destruct (Ascii.eqb_spec c ","); [contradiction | exact Hs].
Qed.

Lemma lat_lng_two_pieces (a b : string) (rest : list string) :
  a <> "" -> b <> "" ->
  (let parts := a :: b :: rest in
   if TourController.missing (nth_error parts 0) || TourController.missing (nth_error parts 1)
   then inl (AppError.new "Please provide latitude and longitude in the format lat,lng." 400)
   else match nth_error parts 0, nth_error parts 1 with
        | Some a, Some b => inr (a, b)
        | _, _ => inl (AppError.new
                         "Please provide latitude and longitude in the format lat,lng." 400)
        end) = inr (a, b).
Proof.
  intros Ha Hb. cbn.
  destruct (String.eqb_spec a ""); [contradiction|].
  destruct (String.eqb_spec b ""); [contradiction | reflexivity].
Qed.

(** X12.  The guard of [getToursWithin] and [getDistances] accepts
    [latlng] exactly when it begins with two non-empty pieces separated by
    a comma, and takes these two as latitude and longitude; what follows a
    second comma is ignored, and the pieces need not be numerals.  Every
    other [latlng] is rejected by a 400 error with status [fail]. *)
Theorem lat_lng_takes_the_first_two_nonempty_pieces :
  forall latlng : string,
    (forall lat lng,
        TourController.lat_lng latlng = inr (lat, lng) <->
        (lat <> "" /\ lng <> "" /\ Pieces.comma_free lat /\ Pieces.comma_free lng /\
         (latlng = lat ++ "," ++ lng \/
          exists rest, latlng = lat ++ "," ++ lng ++ "," ++ rest))) /\
    (forall e,
        TourController.lat_lng latlng = inl e ->
        AppError.statusCode e = 400%N /\ AppError.status e = "fail" /\
        AppError.message e = "Please provide latitude and longitude in the format lat,lng.").
Proof.
  intros latlng. split.
  - intros lat lng. split.
    + intros H. unfold TourController.lat_lng, split in H.
      destruct (split_first (fun x => x) latlng) as (a & Ha & [[-> Hs] | (r & -> & Hs)]).
      * rewrite Hs in H. cbn in H. rewrite orb_true_r in H. discriminate.
      * rewrite Hs in H. unfold split in H.
        destruct (split_first (fun x => x) r) as (b & Hb & [[-> Hs2] | (r2 & -> & Hs2)]);
          rewrite Hs2 in H; cbn in H;
          destruct (String.eqb_spec a ""); try discriminate;
          destruct (String.eqb_spec b ""); try discriminate;
          cbn in H; injection H as <- <-;
          (split; [assumption|]); (split; [assumption|]);
          (split; [assumption|]); (split; [assumption|]).
        -- now left.
        -- right. now exists r2.
    + intros (Hlat & Hlng & Hfa & Hfb & [-> | (rest & ->)]);
        unfold TourController.lat_lng, split;
        change ("," ++ ?x) with (String "," x);
        rewrite (split_aux_prefix _ lat _ Hfa); unfold split.
      * rewrite (split_aux_free _ lng Hfb).
        now apply (lat_lng_two_pieces lat lng []).
      * change (lng ++ "," ++ rest) with (lng ++ String "," rest).
        rewrite (split_aux_prefix _ lng _ Hfb).
        now apply (lat_lng_two_pieces lat lng (split "," rest)).
  - intros e H. unfold TourController.lat_lng in H.
    destruct (TourController.missing (nth_error (split "," latlng) 0)
              || TourController.missing (nth_error (split "," latlng) 1)).
    + injection H as <-. now cbn.
    + destruct (nth_error (split "," latlng) 0); [|injection H as <-; now cbn].
      destruct (nth_error (split "," latlng) 1); [discriminate|].
      injection H as <-. now cbn.
Qed.

Lemma lat_lng_takes_the_first_two_nonempty_pieces_witness :
  TourController.lat_lng "34.1,-118.1,7" = inr ("34.1", "-118.1").
Proof.
  apply (proj1 (lat_lng_takes_the_first_two_nonempty_pieces "34.1,-118.1,7")).
  split; [discriminate|]. split; [discriminate|].
  split; [unfold Pieces.comma_free; cbn; intuition congruence|].
  split; [unfold Pieces.comma_free; cbn; intuition congruence|].
  right. now exists "7".
Defined.
